(** * ProFel: the skill-extraction and matching engine

    A shallow embedding of the matching code of the web front end:

    - [MatchService]: [services/matchService.js]
      ([extractTechKeywords], [extractSkills], [calculateStringSimilarity],
      [performLocalMatch], [calculateMatch], [calculateCombinedMatch]);
    - [HomePage]: the local matcher of [pages/Home.js]
      ([extractProfileSkills], [extractJobSkills], [calculateLocalMatch]).

    JavaScript strings are lists of code units; the model covers the code
    units 0..255 (Latin-1), one [ascii] each.  JavaScript numbers are exact
    rationals extended with NaN and the two infinities ([JS.jsnum]); the
    rounding of IEEE doubles is not modelled.  [console.log] calls are
    dropped. *)

From Stdlib Require Import List Ascii String Bool Arith ZArith QArith Qround Lia
  Permutation Sorted.
From Stdlib Require Import Numbers.DecimalString.
Import ListNotations.

Local Open Scope list_scope.
Local Open Scope bool_scope.

(* ===================================================================== *)
(** ** JavaScript primitives used by the engine *)
(* ===================================================================== *)

Module JS.

(** A JavaScript string. *)
Definition jsstring : Type := list ascii.

(** String literals of the source. *)
Definition str (s : string) : jsstring := list_ascii_of_string s.

Definition code (c : ascii) : nat := nat_of_ascii c.

Definition in_range (lo hi : nat) (c : ascii) : bool :=
  (lo <=? code c)%nat && (code c <=? hi)%nat.

(** The character classes [[a-z]] and [[A-Z]] of the regular expressions. *)
Definition is_lower_az (c : ascii) : bool := in_range 97 122 c.
Definition is_upper_AZ (c : ascii) : bool := in_range 65 90 c.

(** Code units that [String.prototype.toLowerCase] changes in 0..255:
    A-Z, and the Latin-1 capitals U+00C0..U+00DE except U+00D7. *)
Definition has_lowercase (c : ascii) : bool :=
  is_upper_AZ c || (in_range 192 222 c && negb (code c =? 215)%nat).

Definition lower_char (c : ascii) : ascii :=
  if has_lowercase c then ascii_of_nat (code c + 32) else c.

Definition toLowerCase (s : jsstring) : jsstring := map lower_char s.

(** White space of [\s] and of [trim], in 0..255:
    TAB, LF, VT, FF, CR, SPACE and NBSP. *)
Definition is_space (c : ascii) : bool :=
  in_range 9 13 c || (code c =? 32)%nat || (code c =? 160)%nat.

Definition str_eqb (a b : jsstring) : bool :=
  if list_eq_dec ascii_dec a b then true else false.

Fixpoint startsWith (s p : jsstring) : bool :=
  match p, s with
  | [], _ => true
  | _ :: _, [] => false
  | a :: p', b :: s' => Ascii.eqb a b && startsWith s' p'
  end.

(** [s.includes(t)]: [t] occurs in [s] at some offset. *)
Fixpoint includes (s t : jsstring) : bool :=
  startsWith s t ||
  match s with
  | [] => false
  | _ :: s' => includes s' t
  end.

(** [s.split(re)] for a regular expression [re] of the form [[class]+]:
    the separators are the maximal runs of characters of the class.  A
    leading or trailing run leaves an empty first or last piece, and the
    empty string splits into one empty piece. *)
Fixpoint split_go (d : ascii -> bool) (s : jsstring) (cur : jsstring)
  (in_sep : bool) : list jsstring :=
  match s with
  | [] => [rev cur]
  | c :: r =>
      if d c
      then if in_sep then split_go d r cur true
           else rev cur :: split_go d r [] true
      else split_go d r (c :: cur) false
  end.

Definition split_runs (d : ascii -> bool) (s : jsstring) : list jsstring :=
  split_go d s [] false.

(** [s.split(ch)] for a one-character separator. *)
Fixpoint split_char_go (ch : ascii) (s : jsstring) (cur : jsstring)
  : list jsstring :=
  match s with
  | [] => [rev cur]
  | c :: r =>
      if Ascii.eqb c ch then rev cur :: split_char_go ch r []
      else split_char_go ch r (c :: cur)
  end.

Definition split_char (ch : ascii) (s : jsstring) : list jsstring :=
  split_char_go ch s [].

Fixpoint drop_while (f : ascii -> bool) (s : jsstring) : jsstring :=
  match s with
  | [] => []
  | c :: r => if f c then drop_while f r else s
  end.

Definition trim (s : jsstring) : jsstring :=
  rev (drop_while is_space (rev (drop_while is_space s))).

(** Truthiness of a string value: the empty string is falsy. *)
Definition truthy_str (s : jsstring) : bool :=
  match s with [] => false | _ :: _ => true end.

(** Truthiness of a possibly absent string property. *)
Definition truthy (o : option jsstring) : bool :=
  match o with Some s => truthy_str s | None => false end.

(** [new Set(l)] spread back into an array: the first occurrence of every
    value is kept, in insertion order; values are compared with [===]. *)
Fixpoint dedupe_go (seen : list jsstring) (l : list jsstring)
  : list jsstring :=
  match l with
  | [] => []
  | x :: r =>
      if existsb (str_eqb x) seen then dedupe_go seen r
      else x :: dedupe_go (x :: seen) r
  end.

Definition dedupe (l : list jsstring) : list jsstring := dedupe_go [] l.

(** Decimal rendering of an array length inside a template literal. *)
Definition nat_to_str (n : nat) : jsstring :=
  str (NilEmpty.string_of_uint (Nat.to_uint n)).

(** A JavaScript number: NaN, an infinity, or a finite value. *)
Inductive jsnum : Type :=
| JNaN
| JPosInf
| JNegInf
| JFin (q : Q).

(** [a / b] on finite operands. *)
Definition jsdiv (a b : Q) : jsnum :=
  if Qeq_bool b 0 then
    (if Qeq_bool a 0 then JNaN
     else if Qle_bool 0 a then JPosInf else JNegInf)
  else JFin (a / b).

(** [x * k] for a finite positive constant [k]. *)
Definition jsscale (x : jsnum) (k : Q) : jsnum :=
  match x with
  | JFin q => JFin (q * k)
  | other => other
  end.

(** [Math.round]: the nearest integer, halves going up. *)
Definition Math_round (x : jsnum) : jsnum :=
  match x with
  | JFin q => JFin (inject_Z (Qfloor (q + (1 # 2))))
  | other => other
  end.

Definition isNaN (x : jsnum) : bool :=
  match x with JNaN => true | _ => false end.

(** [x >= k] against a finite constant; false on NaN. *)
Definition ge_const (x : jsnum) (k : Q) : bool :=
  match x with
  | JNaN => false
  | JPosInf => true
  | JNegInf => false
  | JFin q => Qle_bool k q
  end.

Definition Qmin2 (a b : Q) : Q := if Qle_bool a b then a else b.
Definition Qmax2 (a b : Q) : Q := if Qle_bool a b then b else a.

(** [Math.max(0, Math.min(1, x))]; NaN is contagious. *)
Definition clamp01 (x : jsnum) : jsnum :=
  match x with
  | JNaN => JNaN
  | JPosInf => JFin 1
  | JNegInf => JFin 0
  | JFin q => JFin (Qmax2 0 (Qmin2 1 q))
  end.

(** [x || d] for an optional numeric property: absent and zero are falsy. *)
Definition num_or (o : option Q) (d : Q) : Q :=
  match o with
  | Some q => if Qeq_bool q 0 then d else q
  | None => d
  end.

(** The elements of an array property; none when the property is absent. *)
Definition opt_list {A : Type} (o : option (list A)) : list A :=
  match o with Some l => l | None => [] end.

End JS.

Import JS.

(* ===================================================================== *)
(** ** The loosely typed records the engine reads *)
(* ===================================================================== *)

Module Shape.

(** An element of a [skills] array that is an object. *)
Record SkillObj : Type := mkSkillObj {
  name : option jsstring;
  importance : option Q;
  proficiency : option Q;
  level : option Q;
  required : option bool
}.

(** An element of a [skills] array: a bare string or an object. *)
Inductive SkillEntry : Type :=
| SkStr (s : jsstring)
| SkObj (o : SkillObj).

Record Repo : Type := mkRepo {
  languages : option (list jsstring);
  technologies : option (list jsstring);
  language : option jsstring;
  repo_name : option jsstring;
  repo_description : option jsstring
}.

Record Experience : Type := mkExperience {
  exp_description : option jsstring;
  exp_title : option jsstring
}.

Record Data : Type := mkData {
  data_skills : option (list SkillEntry);
  repositories : option (list Repo);
  data_bio : option jsstring;
  experience : option (list Experience)
}.

(** A Profile or a Job: every property the engine reads, each optional. *)
Record Obj : Type := mkObj {
  skills : option (list SkillEntry);
  data : option Data;
  platform : option jsstring;
  username : option jsstring;
  title : option jsstring;
  description : option jsstring;
  bio : option jsstring;
  company : option jsstring
}.

(** The object with no property set. *)
Definition empty_obj : Obj :=
  mkObj None None None None None None None None.

(** [obj.skills = v]. *)
Definition set_skills (obj : Obj) (v : list SkillEntry) : Obj :=
  mkObj (Some v) (data obj) (platform obj) (username obj) (title obj)
        (description obj) (bio obj) (company obj).

(** A Job as the job form and the job store build it: a [skills] array,
    a title, a description and a company, and nothing else. *)
Definition job_record (sk : option (list SkillEntry))
  (t d c : option jsstring) : Obj :=
  mkObj sk None None None t d None c.

End Shape.

Import Shape.

(* ===================================================================== *)
(** ** services/matchService.js *)
(* ===================================================================== *)

Module MatchService.

(** *** extractTechKeywords *)

Definition techKeywords : list jsstring := map str [
  "JavaScript"; "JS"; "TypeScript"; "TS"; "React"; "Angular"; "Vue"; "Node"; "Express";
  "MongoDB"; "SQL"; "PostgreSQL"; "MySQL"; "Firebase"; "AWS"; "Azure"; "GCP";
  "Docker"; "Kubernetes"; "CI/CD"; "Git"; "GitHub"; "GitLab"; "Python"; "Django"; "Flask";
  "Java"; "Spring"; "C#"; ".NET"; "C++"; "Ruby"; "Rails"; "PHP"; "Laravel"; "Symfony";
  "HTML"; "CSS"; "SASS"; "SCSS"; "Bootstrap"; "Tailwind"; "Redux"; "GraphQL"; "REST API";
  "Agile"; "Scrum"; "TDD"; "Jest"; "Mocha"; "Cypress"; "WebPack"; "Babel"; "ESLint";
  "Responsive Design"; "Mobile Development"; "Android"; "iOS"; "Swift"; "Kotlin";
  "Machine Learning"; "AI"; "Data Science"; "Big Data"; "Hadoop"; "Spark"; "TensorFlow";
  "Blockchain"; "Ethereum"; "Solidity"; "DevOps"; "Linux"; "Unix"; "Bash"; "Shell";
  "PowerShell"; "Frontend"; "Backend"; "Fullstack"; "Web Development"; "Software Engineering";
  "Algorithm"; "Data Structure"; "Database"; "Networking"; "Security"; "Cloud Computing";
  "Microservices"; "API Design"; "UI/UX"; "Testing"; "QA"; "Debugging"; "Performance Optimization";
  "Go"; "Golang"; "Rust"; "Scala"; "Clojure"; "Haskell"; "Erlang"; "Elixir"; "F#"; "OCaml";
  "R"; "Julia"; "MATLAB"; "Perl"; "Assembly"; "COBOL"; "Fortran"; "Lisp"; "Scheme";
  "Next.js"; "Gatsby"; "Svelte"; "jQuery"; "Ember"; "Backbone"; "Knockout"; "D3.js";
  "Three.js"; "WebGL"; "Canvas"; "SVG"; "Web Components"; "PWA"; "Service Workers";
  "WebSockets"; "WebRTC"; "WebAssembly"; "WASM";
  "Senior"; "Junior"; "Developer"; "Engineer"; "Architect"; "Lead"; "Manager"; "Director";
  "Programmer"; "SDE"; "SWE"
]%string.

(** The separator class of the word split:
    white space, hyphen, underscore, dot, comma, semicolon, colon, the
    exclamation and question marks, round, square and curly brackets,
    the vertical bar, backslash, slash and both quotation marks. *)
Definition is_word_sep (c : ascii) : bool :=
  is_space c
  || existsb (Ascii.eqb c) (str "-_.,;:!?()[]{}|/'")
  || (code c =? 92)%nat
  || (code c =? 34)%nat.

Fixpoint take_while (f : ascii -> bool) (s : jsstring) : jsstring :=
  match s with
  | [] => []
  | c :: r => if f c then c :: take_while f r else []
  end.

Definition head_is (f : ascii -> bool) (s : jsstring) : bool :=
  match s with c :: _ => f c | [] => false end.

(** [/^[a-z]+[A-Z][a-z]*/.test(w)]: the leading run of [a-z] is not empty
    and an [A-Z] follows it. *)
Definition re_camelCase (w : jsstring) : bool :=
  (1 <=? List.length (take_while is_lower_az w))%nat
  && head_is is_upper_AZ (drop_while is_lower_az w).

(** [/^[A-Z][a-z]+[A-Z]/.test(w)]. *)
Definition re_PascalCase (w : jsstring) : bool :=
  match w with
  | c :: r =>
      is_upper_AZ c
      && (1 <=? List.length (take_while is_lower_az r))%nat
      && head_is is_upper_AZ (drop_while is_lower_az r)
  | [] => false
  end.

(** [/\.[a-z]{1,4}$/.test(w)]: [w] ends with a dot and one to four
    letters [a-z]. *)
Definition re_fileExtension (w : jsstring) : bool :=
  let r := rev w in
  let n := List.length (take_while is_lower_az r) in
  (1 <=? n)%nat && (n <=? 4)%nat
  && head_is (Ascii.eqb "."%char) (drop_while is_lower_az r).

(** [/^[a-z]+\-[a-z]+$/.test(w)]. *)
Definition re_hyphenated (w : jsstring) : bool :=
  (1 <=? List.length (take_while is_lower_az w))%nat
  && match drop_while is_lower_az w with
     | c :: r =>
         Ascii.eqb c "-"%char && (1 <=? List.length r)%nat && forallb is_lower_az r
     | [] => false
     end.

Definition looks_like_tech (word : jsstring) : bool :=
  ((1 <? List.length word)%nat && re_camelCase word)
  || ((1 <? List.length word)%nat && re_PascalCase word)
  || re_fileExtension word
  || re_hyphenated word.

Definition found_keywords (textLower : jsstring) : list jsstring :=
  filter (fun keyword => includes textLower (toLowerCase keyword)) techKeywords.

Definition potentialTechWords (textLower : jsstring) : list jsstring :=
  filter looks_like_tech (split_runs is_word_sep textLower).

Definition extractTechKeywords (text : jsstring) : list jsstring :=
  if negb (truthy_str text) then []
  else
    let textLower := toLowerCase text in
    let found := found_keywords textLower in
    let words := potentialTechWords textLower in
    dedupe (found ++ words).

(** *** calculateStringSimilarity *)

Fixpoint commonPrefix_go (a b : jsstring) : nat :=
  match a, b with
  | x :: a', y :: b' => if Ascii.eqb x y then S (commonPrefix_go a' b') else 0
  | _, _ => 0
  end.

Definition commonPrefixLength (str1 str2 : jsstring) : nat :=
  commonPrefix_go str1 str2.

Definition commonSuffixLength (str1 str2 : jsstring) : nat :=
  commonPrefix_go (rev str1) (rev str2).

Definition Qnat (n : nat) : Q := inject_Z (Z.of_nat n).

Definition word_related (w1 w2 : jsstring) : bool :=
  str_eqb w1 w2 || includes w1 w2 || includes w2 w1.

Definition count_common (words1 words2 : list jsstring) : nat :=
  List.length (filter (fun w1 => existsb (word_related w1) words2) words1).

Definition calculateStringSimilarity (str1 str2 : jsstring) : jsnum :=
  if str_eqb str1 str2 then JFin 1
  else if includes str1 str2 then JFin (9 # 10)
  else if includes str2 str1 then JFin (9 # 10)
  else
    let len1 := List.length str1 in
    let len2 := List.length str2 in
    if (len1 =? 0)%nat || (len2 =? 0)%nat then JFin 0
    else if (len1 <? 3)%nat || (len2 <? 3)%nat then
      (if str_eqb (firstn 1 str1) (firstn 1 str2)
       then JFin (7 # 10) else JFin 0)
    else
      let words1 := split_runs is_space str1 in
      let words2 := split_runs is_space str2 in
      let commonWords := count_common words1 words2 in
      if (0 <? commonWords)%nat then
        jsdiv (Qnat commonWords)
              (Qnat (Nat.max (List.length words1) (List.length words2)))
      else
        let prefixLength := commonPrefixLength str1 str2 in
        let suffixLength := commonSuffixLength str1 str2 in
        if (3 <=? prefixLength)%nat || (3 <=? suffixLength)%nat then
          jsdiv (Qnat (prefixLength + suffixLength)) (Qnat (len1 + len2))
        else JFin (1 # 10).

(** *** extractSkills *)

(** [typeof skill === 'string' ? skill : (skill.name || '')]. *)
Definition entry_name (skill : SkillEntry) : jsstring :=
  match skill with
  | SkStr s => s
  | SkObj o => match name o with Some n => n | None => [] end
  end.

(** [arr.map(...).filter(Boolean)] over a [skills] array. *)
Definition entry_names (arr : list SkillEntry) : list jsstring :=
  filter truthy_str (map entry_name arr).

(** [if (t) push(...extractTechKeywords(t))] for an optional text. *)
Definition keywords_of (t : option jsstring) : list jsstring :=
  match t with
  | Some s => if truthy_str s then extractTechKeywords s else []
  | None => []
  end.

Definition if_truthy (t : option jsstring) : list jsstring :=
  match t with
  | Some s => if truthy_str s then [s] else []
  | None => []
  end.

(** [obj.platform === p]. *)
Definition platform_is (obj : Obj) (p : string) : bool :=
  match platform obj with Some s => str_eqb s (str p) | None => false end.

(** [obj.username && obj.username.includes(s)]. *)
Definition username_includes (obj : Obj) (s : string) : bool :=
  match username obj with
  | Some u => truthy_str u && includes u (str s)
  | None => false
  end.

(** [obj.username && !obj.username.includes(s)]. *)
Definition username_excludes (obj : Obj) (s : string) : bool :=
  match username obj with
  | Some u => truthy_str u && negb (includes u (str s))
  | None => false
  end.

Definition is_linkedin (obj : Obj) : bool :=
  platform_is obj "linkedin" || username_includes obj "linkedin.com".

Definition is_github (obj : Obj) : bool :=
  platform_is obj "github" || username_excludes obj "linkedin.com".

(** The body of the first [repositories.forEach]. *)
Definition repo_skills (repo : Repo) : list jsstring :=
  opt_list (languages repo)
  ++ opt_list (technologies repo)
  ++ if_truthy (language repo)
  ++ keywords_of (repo_name repo)
  ++ keywords_of (repo_description repo).

(** The [if (obj.data)] block. *)
Definition data_part (obj : Obj) : list jsstring :=
  match data obj with
  | None => []
  | Some d =>
      match data_skills d with Some l => entry_names l | None => [] end
      ++ flat_map repo_skills (opt_list (repositories d))
      ++ keywords_of (data_bio d)
  end.

(** [lastPart.replace(/-/g, ' ')]. *)
Definition hyphens_to_spaces (s : jsstring) : jsstring :=
  map (fun c => if Ascii.eqb c "-"%char then " "%char else c) s.

(** The keywords taken from the last segment of a LinkedIn URL. *)
Definition url_keywords (u : jsstring) : list jsstring :=
  let parts := split_char "/"%char u in
  let lastPart := last parts [] in
  if truthy_str lastPart && negb (str_eqb lastPart [])
     && negb (includes lastPart (str "linkedin.com"))
  then extractTechKeywords (hyphens_to_spaces lastPart)
  else [].

(** The block for LinkedIn profiles. *)
Definition linkedin_part (obj : Obj) : list jsstring :=
  if is_linkedin obj then
    match data obj with
    | Some d =>
        flat_map (fun exp => keywords_of (exp_description exp)
                             ++ keywords_of (exp_title exp))
                 (opt_list (experience d))
    | None => []
    end
    ++ (if username_includes obj "linkedin.com" then
          map str ["LinkedIn"; "Networking"; "Professional"; "Communication"]%string
          ++ url_keywords (match username obj with Some u => u | None => [] end)
        else [])
  else [].

(** The block for GitHub profiles. *)
Definition github_part (obj : Obj) : list jsstring :=
  if is_github obj then
    (if username_excludes obj "http" then
       map str ["GitHub"; "Git"; "Version Control"]%string
       ++ map str ["Programming"; "Software Development"; "Coding"]%string
     else [])
    ++ match data obj with
       | Some d =>
           flat_map (fun repo => if_truthy (language repo)
                                 ++ opt_list (languages repo))
                    (opt_list (repositories d))
       | None => []
       end
  else [].

(** The block taken when nothing was found but a username is there. *)
Definition username_fallback (obj : Obj) (skills : list jsstring)
  : list jsstring :=
  if (List.length skills =? 0)%nat && truthy (username obj) then
    let usernameKeywords :=
      extractTechKeywords (match username obj with Some u => u | None => [] end) in
    let skills :=
      if (0 <? List.length usernameKeywords)%nat then skills ++ usernameKeywords
      else skills in
    if (List.length skills =? 0)%nat then
      if is_github obj then
        skills ++ map str ["GitHub"; "Programming"; "Software Development"; "Coding"]%string
      else if is_linkedin obj then
        skills ++ map str ["LinkedIn"; "Professional Networking"; "Communication";
                           "Professional Skills"]%string
      else skills
    else skills
  else skills.

(** The block taken when nothing was found but a company is there. *)
Definition company_fallback (obj : Obj) (skills : list jsstring)
  : list jsstring :=
  if (List.length skills =? 0)%nat && truthy (company obj) then
    (skills ++ keywords_of (company obj))
    ++ map str ["Professional"; "Communication"; "Teamwork"]%string
  else skills.

(** The array [skills] just before it is cleaned. *)
Definition collected_skills (obj : Obj) : list jsstring :=
  let skills := [] in
  let skills := skills ++ match Shape.skills obj with
                          | Some l => entry_names l
                          | None => []
                          end in
  let skills := skills ++ data_part obj in
  let skills := skills ++ linkedin_part obj in
  let skills := skills ++ github_part obj in
  let skills := skills ++ keywords_of (title obj) in
  let skills := skills ++ keywords_of (description obj) in
  let skills := skills ++ keywords_of (bio obj) in
  let skills := username_fallback obj skills in
  let skills := company_fallback obj skills in
  skills.

(** [[...new Set(skills.map(s => s?.trim()).filter(Boolean))]]. *)
Definition clean (skills : list jsstring) : list jsstring :=
  dedupe (filter truthy_str (map trim skills)).

Definition extractSkills (obj : option Obj) : list jsstring :=
  match obj with
  | None => []
  | Some o => clean (collected_skills o)
  end.

(** *** performLocalMatch *)

(** The result object of the service.  [message] is absent and [error]
    present only in the objects built by the [catch] handlers. *)
Record MatchResult : Type := mkMatchResult {
  overall_score : jsnum;
  skill_match : jsnum;
  skills_matched : list jsstring;
  skills_missing : list jsstring;
  message : option jsstring;
  platforms : option (list jsstring)
}.

Definition fallbackJobSkills : list jsstring :=
  map str ["communication"; "teamwork"; "problem solving"; "professional"]%string.

Definition similarityThreshold : Q := 6 # 10.

(** [calculateStringSimilarity(p.toLowerCase(), j.toLowerCase())
     >= similarityThreshold]. *)
Definition similar (pSkill jSkill : jsstring) : bool :=
  ge_const (calculateStringSimilarity (toLowerCase pSkill) (toLowerCase jSkill))
           similarityThreshold.

Definition effectiveJobSkills (jobSkills : list jsstring) : list jsstring :=
  if (0 <? List.length jobSkills)%nat then jobSkills else fallbackJobSkills.

(** One round of [profileSkills.forEach]: [matchedSkills] after [pSkill]. *)
Definition match_step (effective : list jsstring)
  (matchedSkills : list jsstring) (pSkill : jsstring) : list jsstring :=
  let bestMatch := find (fun jSkill => similar pSkill jSkill) effective in
  if truthy bestMatch && negb (existsb (str_eqb pSkill) matchedSkills)
  then matchedSkills ++ [pSkill]
  else matchedSkills.

Definition matchedSkills_of (profileSkills effective : list jsstring)
  : list jsstring :=
  fold_left (match_step effective) profileSkills [].

Definition missingSkills_of (profileSkills effective : list jsstring)
  : list jsstring :=
  filter (fun jSkill => negb (existsb (fun pSkill => similar pSkill jSkill)
                                      profileSkills))
         effective.

Definition found_message (m n : nat) : jsstring :=
  str "Found " ++ nat_to_str m ++ str " matching skills out of "
  ++ nat_to_str n ++ str " required skills".

Definition performLocalMatch (profile job : option Obj) : MatchResult :=
  let profileSkills := extractSkills profile in
  let jobSkills := extractSkills job in
  let effective := effectiveJobSkills jobSkills in
  if (List.length profileSkills =? 0)%nat then
    mkMatchResult (JFin (3 # 10)) (JFin (3 # 10)) [] effective
                  (Some (str "No profile skills found for matching")) None
  else
    let matchedSkills := matchedSkills_of profileSkills effective in
    let missingSkills := missingSkills_of profileSkills effective in
    let score :=
      if (0 <? List.length effective)%nat
      then jsdiv (Qnat (List.length matchedSkills)) (Qnat (List.length effective))
      else JFin (1 # 2) in
    let validScore := if isNaN score then JFin (1 # 2) else clamp01 score in
    mkMatchResult validScore validScore matchedSkills missingSkills
                  (Some (found_message (List.length matchedSkills)
                                       (List.length effective)))
                  None.

(** *** calculateMatch and calculateCombinedMatch

    Both receive their arguments by reference.  The objects live in a
    store; a call is a state transformer on it, so that writes to the
    caller's objects are visible in the final store. *)

Record Store (P : Type) : Type := mkStore {
  st_profile : P;
  st_job : Obj
}.
Arguments mkStore {P}.
Arguments st_profile {P}.
Arguments st_job {P}.

Definition M (P A : Type) : Type := Store P -> A * Store P.

Definition ret {P A : Type} (a : A) : M P A := fun s => (a, s).

Definition bind {P A B : Type} (m : M P A) (k : A -> M P B) : M P B :=
  fun s => let (a, s') := m s in k a s'.

Definition read_job {P : Type} : M P Obj := fun s => (st_job s, s).

Definition read_profile {P : Type} : M P P := fun s => (st_profile s, s).

(** [job.skills = v]. *)
Definition write_job_skills {P : Type} (v : list SkillEntry) : M P unit :=
  fun s => (tt, mkStore (st_profile s) (set_skills (st_job s) v)).

Notation "x <- m ;; k" := (bind m (fun x => k))
  (at level 61, m at next level, right associativity).

(** [!job.skills || !job.skills.length]. *)
Definition no_skills (job : Obj) : bool :=
  match skills job with
  | Some l => (List.length l =? 0)%nat
  | None => true
  end.

(** The common prologue: a job with a description but no skills gets
    the keywords of its description as its skills. *)
Definition fill_job_skills {P : Type} : M P unit :=
  job <- read_job ;;
  if truthy (description job) && no_skills job then
    let techKeywords :=
      extractTechKeywords
        (match description job with Some d => d | None => [] end) in
    write_job_skills (map SkStr techKeywords)
  else ret tt.

(** No operation of the [try] block throws on records of these types, so
    the [catch] handler and its default result are never reached. *)
Definition calculateMatch : M Obj MatchResult :=
  _ <- fill_job_skills ;;
  profile <- read_profile ;;
  job <- read_job ;;
  ret (performLocalMatch (Some profile) (Some job)).

Definition with_platforms (r : MatchResult) (p : list jsstring) : MatchResult :=
  mkMatchResult (overall_score r) (skill_match r) (skills_matched r)
                (skills_missing r) (message r) (Some p).

Definition calculateCombinedMatch : M (list Obj) MatchResult :=
  _ <- fill_job_skills ;;
  profiles <- read_profile ;;
  job <- read_job ;;
  let allProfileSkills := flat_map (fun p => extractSkills (Some p)) profiles in
  let uniqueSkills := dedupe allProfileSkills in
  let profileObj := set_skills empty_obj (map SkStr uniqueSkills) in
  let result := performLocalMatch (Some profileObj) (Some job) in
  ret (with_platforms result (flat_map (fun p => if_truthy (platform p)) profiles)).

(** *** isSimilarSkill *)

Definition isSimilarSkill (skill1 skill2 : option jsstring) : bool :=
  match skill1, skill2 with
  | Some a, Some b =>
      if negb (truthy_str a) || negb (truthy_str b) then false
      else
        let s1 := toLowerCase a in
        let s2 := toLowerCase b in
        str_eqb s1 s2 || includes s1 s2 || includes s2 s1
  | _, _ => false
  end.

End MatchService.

(* ===================================================================== *)
(** ** pages/Home.js: the local matcher of the matching page *)
(* ===================================================================== *)

Module HomePage.

(** A profile skill in the consistent format of [extractProfileSkills]. *)
Record ProfileSkill : Type := mkProfileSkill {
  p_name : jsstring;
  p_proficiency : option Q
}.

(** A job skill in the consistent format of [extractJobSkills].  The
    objects built there carry [name] and [importance] only, so a later
    read of [required] finds nothing: [j_required] is what that read
    returns. *)
Record JobSkill : Type := mkJobSkill {
  j_name : jsstring;
  j_importance : option Q;
  j_required : option bool
}.

Definition first_num (a b : option Q) (d : Q) : Q :=
  match a with
  | Some q => if Qeq_bool q 0 then num_or b d else q
  | None => num_or b d
  end.

Definition extractProfileSkills (profile : option Obj) : list ProfileSkill :=
  match profile with
  | None => []
  | Some p =>
      flat_map
        (fun skill =>
           match skill with
           | SkStr s => [mkProfileSkill s None]
           | SkObj o =>
               match name o with
               | Some n =>
                   if truthy_str n then
                     [mkProfileSkill n
                        (Some (first_num (proficiency o) (level o) 1))]
                   else []
               | None => []
               end
           end)
        (opt_list (skills p))
  end.

Definition extractJobSkills (job : option Obj) : list JobSkill :=
  match job with
  | None => []
  | Some j =>
      flat_map
        (fun skill =>
           match skill with
           | SkStr s => [mkJobSkill s (Some (1 # 2)) None]
           | SkObj o =>
               match name o with
               | Some n =>
                   if truthy_str n then
                     [mkJobSkill n (Some (num_or (importance o) (1 # 2))) None]
                   else []
               | None => []
               end
           end)
        (opt_list (skills j))
  end.

Record SkillMatch : Type := mkSkillMatch {
  skill_name : jsstring;
  m_importance : Q;
  m_proficiency : Q;
  match_quality : Q;
  match_score : Q;
  weighted_score : Q;
  m_required : bool
}.

Record MissingSkill : Type := mkMissingSkill {
  ms_name : jsstring;
  ms_importance : Q;
  ms_required : bool
}.

(** A proficiency, after its default, that lies between 0 and 1. *)
Definition proficiency_ok (p : ProfileSkill) : Prop :=
  0 <= num_or (p_proficiency p) 1 /\ num_or (p_proficiency p) 1 <= 1.

(** The predicate of [profileSkills.find]. *)
Definition name_related (jobSkillName : jsstring) (s : ProfileSkill) : bool :=
  str_eqb (toLowerCase (p_name s)) jobSkillName
  || includes (toLowerCase (p_name s)) jobSkillName
  || includes jobSkillName (toLowerCase (p_name s)).

(** [x || false] for an optional boolean property. *)
Definition bool_or_false (o : option bool) : bool :=
  match o with Some b => b | None => false end.

(** The variables that the [jobSkills.forEach] loop updates. *)
Record Acc : Type := mkAcc {
  totalImportance : Q;
  matchedImportance : Q;
  skillMatches : list SkillMatch;
  missingSkills : list MissingSkill
}.

Definition match_of (jobSkill : JobSkill) (importance : Q)
  (matchingSkill : ProfileSkill) : SkillMatch :=
  let jobSkillName := toLowerCase (j_name jobSkill) in
  let proficiency := num_or (p_proficiency matchingSkill) 1 in
  let matchQuality :=
    if str_eqb (toLowerCase (p_name matchingSkill)) jobSkillName
    then 1 else 7 # 10 in
  let matchScore := matchQuality * proficiency in
  mkSkillMatch (j_name jobSkill) importance proficiency matchQuality
               matchScore (importance * matchScore)
               (bool_or_false (j_required jobSkill)).

(** [profileSkills.find(...)] for one job skill. *)
Definition matchingSkill (profileSkills : list ProfileSkill)
  (jobSkill : JobSkill) : option ProfileSkill :=
  let jobSkillName := toLowerCase (j_name jobSkill) in
  find (name_related jobSkillName) profileSkills.

(** [if (matchingSkill)]: whether the search finds a profile skill. *)
Definition has_match (profileSkills : list ProfileSkill)
  (jobSkill : JobSkill) : bool :=
  match matchingSkill profileSkills jobSkill with
  | Some _ => true
  | None => false
  end.

(** [jobSkill.importance || 0.5]. *)
Definition importance_of (jobSkill : JobSkill) : Q :=
  num_or (j_importance jobSkill) (1 # 2).

(** One round of the loop. *)
Definition job_step (profileSkills : list ProfileSkill) (acc : Acc)
  (jobSkill : JobSkill) : Acc :=
  let importance := importance_of jobSkill in
  let total := totalImportance acc + importance in
  match matchingSkill profileSkills jobSkill with
  | Some matchingSkill =>
      let m := match_of jobSkill importance matchingSkill in
      mkAcc total (matchedImportance acc + importance * match_score m)
            (skillMatches acc ++ [m]) (missingSkills acc)
  | None =>
      mkAcc total (matchedImportance acc) (skillMatches acc)
            (missingSkills acc
             ++ [mkMissingSkill (j_name jobSkill) importance
                                (bool_or_false (j_required jobSkill))])
  end.

Definition run_loop (profileSkills : list ProfileSkill)
  (jobSkills : list JobSkill) : Acc :=
  fold_left (job_step profileSkills) jobSkills (mkAcc 0 0 [] []).

Definition tier (overallMatch : jsnum) : jsstring :=
  if ge_const overallMatch 85 then
    str "Excellent Match: This candidate has most of the required skills and would be an excellent fit for this position."
  else if ge_const overallMatch 70 then
    str "Good Match: This candidate has many of the required skills and would likely be a good fit with some training."
  else if ge_const overallMatch 50 then
    str "Moderate Match: This candidate has some of the required skills but may need significant training or may not be ideal for this specific role."
  else if ge_const overallMatch 30 then
    str "Weak Match: This candidate is missing many critical skills required for this position."
  else
    str "Poor Match: This candidate does not appear to have the necessary skills for this position.".

Definition required_note (n : nat) : jsstring :=
  str " Missing " ++ nat_to_str n ++ str " required skill(s).".

(** The result object, without the properties copied from the two
    records ([profile_id], [profile_name], [job_id], [job_title],
    [company]) and without those read from the clock ([id],
    [created_at]). *)
Record LocalMatch : Type := mkLocalMatch {
  overall_match : jsnum;
  skill_matches : list SkillMatch;
  missing_skills : list jsstring;
  missing_skills_details : list MissingSkill;
  strengths : list jsstring;
  recommendation : jsstring
}.

(** [overall_match] is the exact value of the rounded percentage: the
    code computes it in doubles, where the sums and the quotient are
    rounded and the integer may differ by one from the exact one.  The
    lists of the result do not depend on the arithmetic.  The page calls
    the function with a profile and a job that it has found, never with
    null. *)
Definition calculateLocalMatch (profile job : option Obj) : LocalMatch :=
  let profileSkills := extractProfileSkills profile in
  let jobSkills := extractJobSkills job in
  let acc := run_loop profileSkills jobSkills in
  let overallMatch :=
    Math_round (jsscale (jsdiv (matchedImportance acc) (totalImportance acc))
                        100) in
  let recommendation := tier overallMatch in
  let missingRequiredSkills := filter ms_required (missingSkills acc) in
  let recommendation :=
    if (0 <? List.length missingRequiredSkills)%nat
    then recommendation ++ required_note (List.length missingRequiredSkills)
    else recommendation in
  let strengths :=
    map skill_name
        (filter (fun m => Qle_bool (7 # 10) (m_importance m)
                          && Qle_bool (7 # 10) (match_score m))
                (skillMatches acc)) in
  mkLocalMatch overallMatch (skillMatches acc)
               (map ms_name (missingSkills acc)) (missingSkills acc)
               strengths recommendation.

End HomePage.

(* ===================================================================== *)
(** ** pages/Home.js: the jobs page *)
(* ===================================================================== *)

Module JobsPage.

(** The three job levels, as the strings of the source. *)
Definition calculateJobLevel (title : jsstring) : jsstring :=
  let lowerTitle := toLowerCase title in
  if includes lowerTitle (str "senior") || includes lowerTitle (str "lead")
     || includes lowerTitle (str "architect") || includes lowerTitle (str "manager")
  then str "senior"
  else if includes lowerTitle (str "junior") || includes lowerTitle (str "intern")
          || includes lowerTitle (str "assistant")
  then str "entry"
  else str "mid".

(** A skill object as [parseSkills] builds it. *)
Record ParsedSkill : Type := mkParsedSkill {
  ps_name : jsstring;
  ps_importance : Q;
  ps_required : bool;
  ps_description : jsstring
}.

(** [Math.max(0.3, 1 - (index * 0.7 / (totalSkills || 1)))]. *)
Definition raw_importance (index totalSkills : nat) : Q :=
  Qmax2 (3 # 10)
        (1 - (inject_Z (Z.of_nat index) * (7 # 10))
             / inject_Z (Z.of_nat (if (totalSkills =? 0)%nat then 1
                                   else totalSkills))).

(** [Math.round(importance * 10) / 10]. *)
Definition round1 (importance : Q) : Q :=
  inject_Z (Qfloor (importance * 10 + (1 # 2))) / 10.

(** The callback of [map], followed by [filter(Boolean)], on the pieces
    from position [index] on. *)
Fixpoint parse_from (index totalSkills : nat) (pieces : list jsstring)
  : list ParsedSkill :=
  match pieces with
  | [] => []
  | skill :: rest =>
      let name := trim skill in
      (if negb (truthy_str name) then []
       else
         [mkParsedSkill name
            (round1 (raw_importance index totalSkills))
            (index <? 3)%nat
            (str "Skill in " ++ name ++ str " is "
             ++ (if (index <? 3)%nat then str "essential" else str "beneficial")
             ++ str " for this role")])
      ++ parse_from (S index) totalSkills rest
  end.

Definition parseSkills (skillsText : jsstring) : list ParsedSkill :=
  if negb (truthy_str skillsText) then []
  else
    let array := split_char ","%char skillsText in
    parse_from 0 (List.length array) array.

(** What every parsed skill satisfies: a trimmed name that is not empty
    and an importance between 0.3 and 1. *)
Definition parsed_ok (s : ParsedSkill) : Prop :=
  ps_name s <> [] /\ trim (ps_name s) = ps_name s
  /\ 3 # 10 <= ps_importance s /\ ps_importance s <= 1.

(** The parsed skill as an element of [job.skills]; the engine does not
    read [description]. *)
Definition as_entry (s : ParsedSkill) : SkillEntry :=
  SkObj (mkSkillObj (Some (ps_name s)) (Some (ps_importance s)) None None
                    (Some (ps_required s))).

End JobsPage.

(* ===================================================================== *)
(** ** pages/Home.js: the matching page of the service *)
(* ===================================================================== *)

Module MatchingPage.

(** A stored match, as far as [upgradeLegacyMatches] looks at it: the two
    legacy properties, the two current ones, and all the others. *)
Record StoredMatch (A : Type) : Type := mkStoredMatch {
  lm_rest : A;
  lm_matchedSkills : option (list jsstring);
  lm_skills_matched : option (list jsstring);
  lm_missingSkills : option (list jsstring);
  lm_skills_missing : option (list jsstring)
}.
Arguments mkStoredMatch {A}.
Arguments lm_rest {A}.
Arguments lm_matchedSkills {A}.
Arguments lm_skills_matched {A}.
Arguments lm_missingSkills {A}.
Arguments lm_skills_missing {A}.

Definition present {B : Type} (o : option B) : bool :=
  match o with Some _ => true | None => false end.

(** The callback of [map] on an entry that is not null. *)
Definition upgrade_one {A : Type} (m : StoredMatch A) : StoredMatch A :=
  let '(legacy_matched, matched) :=
    if present (lm_matchedSkills m) && negb (present (lm_skills_matched m))
    then (None, lm_matchedSkills m)
    else if negb (present (lm_skills_matched m))
    then (lm_matchedSkills m, Some [])
    else (lm_matchedSkills m, lm_skills_matched m) in
  let '(legacy_missing, missing) :=
    if present (lm_missingSkills m) && negb (present (lm_skills_missing m))
    then (None, lm_missingSkills m)
    else if negb (present (lm_skills_missing m))
    then (lm_missingSkills m, Some [])
    else (lm_missingSkills m, lm_skills_missing m) in
  mkStoredMatch (lm_rest m) legacy_matched matched legacy_missing missing.

Definition upgradeLegacyMatches {A : Type}
  (matchesData : option (list (option (StoredMatch A))))
  : list (StoredMatch A) :=
  match matchesData with
  | None => []
  | Some l =>
      flat_map (fun m => match m with Some x => [upgrade_one x] | None => [] end) l
  end.

(** [x || 0.5] on a number: NaN and zero are falsy. *)
Definition jsnum_or_half (x : jsnum) : jsnum :=
  match x with
  | JNaN => JFin (1 # 2)
  | JFin q => if Qeq_bool q 0 then JFin (1 # 2) else JFin q
  | other => other
  end.

(** The [score] of the match that [handleMatchSubmit] stores:
    [matchResult.overall_score || 0.5]. *)
Definition stored_score (matchResult : MatchService.MatchResult) : jsnum :=
  jsnum_or_half (MatchService.overall_score matchResult).

End MatchingPage.

(* ===================================================================== *)
(** ** components/MatchResultCard.js *)
(* ===================================================================== *)

Module MatchResultCard.

Definition getMatchColor (percentage : jsnum) : jsstring :=
  if ge_const percentage 85 then str "bg-green-500"
  else if ge_const percentage 70 then str "bg-blue-500"
  else if ge_const percentage 50 then str "bg-yellow-500"
  else if ge_const percentage 30 then str "bg-orange-500"
  else str "bg-red-500".

End MatchResultCard.

Import MatchService HomePage JobsPage MatchingPage MatchResultCard.

(* ===================================================================== *)
(** ** The pairing rule as the specification words it *)
(* ===================================================================== *)

Module SpecWords.

(** [similarity(p.name, j.name)], case-insensitive, as a rational. *)
Definition similarity (a b : jsstring) : Q :=
  match calculateStringSimilarity (toLowerCase a) (toLowerCase b) with
  | JFin q => q
  | _ => 0
  end.

(** The candidate profile skill maximizing the similarity to [j], with
    that similarity; the earliest of several maximal ones. *)
Fixpoint best_candidate (j : jsstring) (ps : list ProfileSkill)
  : option (ProfileSkill * Q) :=
  match ps with
  | [] => None
  | p :: rest =>
      let here := similarity (p_name p) j in
      match best_candidate j rest with
      | Some (q, s) => if Qle_bool s here then Some (p, here) else Some (q, s)
      | None => Some (p, here)
      end
  end.

(** The pair is matched when the maximal similarity reaches 0.6. *)
Definition spec_matched (j : jsstring) (ps : list ProfileSkill) : bool :=
  match best_candidate j ps with
  | Some (_, s) => Qle_bool (6 # 10) s
  | None => false
  end.

(** Match quality: 1.0 on names equal without regard to case, else 0.7. *)
Definition spec_quality (j : jsstring) (p : ProfileSkill) : Q :=
  if str_eqb (toLowerCase (p_name p)) (toLowerCase j) then 1 else 7 # 10.

End SpecWords.

(* ===================================================================== *)
(** ** Concrete records used in the examples *)
(* ===================================================================== *)

Module Inputs.

Definition with_skills (names : list string) : Obj :=
  set_skills empty_obj (map (fun n => SkStr (str n)) names).

Definition job_skill (n : string) (imp : Q) (req : bool) : SkillEntry :=
  SkObj (mkSkillObj (Some (str n)) (Some imp) None None (Some req)).

(** Scenario A. *)
Definition profile_A : Obj := with_skills ["React"; "Node.js"]%string.
Definition job_A : Obj :=
  set_skills empty_obj [job_skill "React" 1 true; job_skill "Python" (8 # 10) true].

(** A job whose skills array is empty. *)
Definition job_no_skills : Obj := set_skills empty_obj [].

(** A job described in free text only. *)
Definition job_described : Obj :=
  mkObj None None None None (Some (str "Engineer")) (Some (str "React developer"))
        None (Some (str "Acme")).

Definition profile_js : Obj := with_skills ["js"]%string.
Definition job_java : Obj := with_skills ["java"]%string.
Definition profile_two_javas : Obj := with_skills ["JavaScript"; "Java"]%string.
Definition job_Java : Obj := with_skills ["Java"]%string.
Definition job_Java_important : Obj :=
  set_skills empty_obj [job_skill "Java" (8 # 10) true].

Definition profile_reactjs : Obj := with_skills ["ReactJS"]%string.
Definition job_react_python : Obj := with_skills ["React"; "Python"]%string.

Definition profile_no_skills : Obj := empty_obj.
Definition job_sql : Obj := set_skills empty_obj [job_skill "SQL" (1 # 2) false].


End Inputs.

Import Inputs.

(* ===================================================================== *)
(** ** Facts about the primitives *)
(* ===================================================================== *)

Lemma str_eqb_eq (a b : jsstring) : str_eqb a b = true <-> a = b.
Proof.
  unfold str_eqb. destruct (list_eq_dec ascii_dec a b); split; congruence.
Qed.

Lemma str_eqb_refl (a : jsstring) : str_eqb a a = true.
Proof. now apply str_eqb_eq. Qed.

Lemma startsWith_nil (s : jsstring) : startsWith s [] = true.
Proof. now destruct s. Qed.

Lemma includes_nil (s : jsstring) : includes s [] = true.
Proof. destruct s; simpl; now rewrite ?startsWith_nil. Qed.

Lemma filter_none {A : Type} (f : A -> bool) (l : list A) :
  (forall x, In x l -> f x = false) -> filter f l = [].
Proof.
  induction l as [|a l IH]; intros H; simpl; [reflexivity|].
  rewrite (H a (or_introl eq_refl)). apply IH. intros x Hx. apply H. now right.
Qed.

Lemma drop_while_incl (f : ascii -> bool) (s : jsstring) (c : ascii) :
  In c (drop_while f s) -> In c s.
Proof.
  induction s as [|a s IH]; simpl; [easy|].
  destruct (f a); [intros H; right; now apply IH | easy].
Qed.

Lemma drop_while_head (f : ascii -> bool) (s : jsstring) :
  head_is f (drop_while f s) = false.
Proof.
  induction s as [|a s IH]; simpl; [reflexivity|].
  destruct (f a) eqn:E; [exact IH | simpl; exact E].
Qed.

Lemma drop_while_fixed (f : ascii -> bool) (s : jsstring) :
  head_is f s = false -> drop_while f s = s.
Proof. destruct s as [|a s]; simpl; [easy|]. now intros ->. Qed.

Lemma drop_while_snoc (f : ascii -> bool) (s : jsstring) (c : ascii) :
  f c = false -> drop_while f (s ++ [c]) = drop_while f s ++ [c].
Proof.
  intros Hc. induction s as [|a s IH]; simpl.
  - now rewrite Hc.
  - destruct (f a); [exact IH | reflexivity].
Qed.

Lemma head_is_in (f : ascii -> bool) (s : jsstring) :
  head_is f s = true -> exists c, In c s /\ f c = true.
Proof.
  destruct s as [|a s]; simpl; [easy|]. intros H. exists a. split; [now left | exact H].
Qed.

(** *** trim *)

Lemma trim_head (s : jsstring) : head_is is_space (trim s) = false.
Proof.
  unfold trim.
  pose proof (drop_while_head is_space s) as Hh.
  destruct (drop_while is_space s) as [|c u]; [reflexivity|].
  simpl in Hh. simpl rev at 2.
  rewrite (drop_while_snoc _ _ _ Hh), rev_app_distr. simpl. exact Hh.
Qed.

Lemma trim_last (s : jsstring) : head_is is_space (rev (trim s)) = false.
Proof. unfold trim. rewrite rev_involutive. apply drop_while_head. Qed.

Lemma trim_fixed (s : jsstring) :
  head_is is_space s = false -> head_is is_space (rev s) = false -> trim s = s.
Proof.
  intros H1 H2. unfold trim.
  rewrite (drop_while_fixed _ _ H1), (drop_while_fixed _ _ H2).
  apply rev_involutive.
Qed.

Lemma trim_idempotent (s : jsstring) : trim (trim s) = trim s.
Proof. apply trim_fixed; [apply trim_head | apply trim_last]. Qed.

(** *** Set semantics of [dedupe] *)

Lemma existsb_str_eqb (x : jsstring) (l : list jsstring) :
  existsb (str_eqb x) l = true <-> In x l.
Proof.
  rewrite existsb_exists. split.
  - intros [y [Hy E]]. apply str_eqb_eq in E. now subst.
  - intros H. exists x. split; [exact H | apply str_eqb_refl].
Qed.

Lemma dedupe_go_in (l seen : list jsstring) (x : jsstring) :
  In x (dedupe_go seen l) <-> In x l /\ ~ In x seen.
Proof.
  revert seen. induction l as [|a l IH]; intros seen; simpl; [tauto|].
  destruct (existsb (str_eqb a) seen) eqn:E.
  - apply existsb_str_eqb in E. rewrite IH.
    split; [tauto|]. intros [[->|H] Hn]; tauto.
  - assert (Ha : ~ In a seen).
    { intros H. apply existsb_str_eqb in H. congruence. }
    simpl. rewrite IH. simpl.
    destruct (list_eq_dec ascii_dec a x) as [->|Hne]; [tauto|].
    split; [intros [?|[? ?]]; [easy|tauto] | intros [[?|?] ?]; [easy|right; tauto]].
Qed.

Lemma dedupe_go_NoDup (l seen : list jsstring) : NoDup (dedupe_go seen l).
Proof.
  revert seen. induction l as [|a l IH]; intros seen; simpl; [constructor|].
  destruct (existsb (str_eqb a) seen); [apply IH|].
  constructor; [|apply IH].
  rewrite dedupe_go_in. simpl. tauto.
Qed.

Lemma dedupe_in (l : list jsstring) (x : jsstring) : In x (dedupe l) <-> In x l.
Proof. unfold dedupe. rewrite dedupe_go_in. simpl. tauto. Qed.

Lemma dedupe_NoDup (l : list jsstring) : NoDup (dedupe l).
Proof. apply dedupe_go_NoDup. Qed.

(** *** The word split *)

Lemma split_go_chars (d : ascii -> bool) (P : ascii -> Prop)
  (s cur : jsstring) (in_sep : bool) :
  Forall P s ->
  Forall (fun c => d c = false /\ P c) cur ->
  Forall (Forall (fun c => d c = false /\ P c)) (split_go d s cur in_sep).
Proof.
  revert cur in_sep. induction s as [|c r IH]; intros cur in_sep Hs Hcur; simpl.
  - constructor; [|constructor]. now apply Forall_rev.
  - inversion Hs as [|? ? Hc Hr]; subst.
    destruct (d c) eqn:Edc.
    + destruct in_sep.
      * now apply IH.
      * constructor; [now apply Forall_rev | apply IH; [assumption | constructor]].
    + apply IH; [assumption|]. constructor; [split|]; assumption.
Qed.

Lemma split_runs_chars (d : ascii -> bool) (P : ascii -> Prop) (s w : jsstring) :
  Forall P s -> In w (split_runs d s) ->
  forall c, In c w -> d c = false /\ P c.
Proof.
  intros Hs Hw c Hc.
  pose proof (split_go_chars d P s [] false Hs (Forall_nil _)) as H.
  rewrite Forall_forall in H. specialize (H w Hw).
  rewrite Forall_forall in H. now apply H.
Qed.

Lemma split_go_nonempty (d : ascii -> bool) (s cur : jsstring) (b : bool) :
  split_go d s cur b <> [].
Proof.
  revert cur b. induction s as [|c r IH]; intros cur b; simpl; [easy|].
  destruct (d c); [destruct b; [apply IH | easy] | apply IH].
Qed.

(** *** Lower case *)

Lemma lower_char_not_upper (c : ascii) : is_upper_AZ (lower_char c) = false.
Proof. destruct c as [[] [] [] [] [] [] [] []]; reflexivity. Qed.

Lemma toLowerCase_no_upper (s : jsstring) :
  Forall (fun c => is_upper_AZ c = false) (toLowerCase s).
Proof.
  unfold toLowerCase. apply Forall_forall. intros c Hc.
  apply in_map_iff in Hc. destruct Hc as [x [<- _]]. apply lower_char_not_upper.
Qed.

(* ===================================================================== *)
(** ** Keyword extraction *)
(* ===================================================================== *)

(** Each shape heuristic asks for a capital letter, a dot or a hyphen. *)
Lemma looks_like_tech_needs (w : jsstring) :
  looks_like_tech w = true ->
  exists c, In c w /\ (is_upper_AZ c = true \/ is_word_sep c = true).
Proof.
  unfold looks_like_tech. intros H.
  repeat (apply orb_true_iff in H; destruct H as [H|H]).
  - apply andb_true_iff in H. destruct H as [_ H].
    unfold re_camelCase in H. apply andb_true_iff in H. destruct H as [_ H].
    apply head_is_in in H. destruct H as [c [Hc Hu]].
    exists c. split; [now apply drop_while_incl in Hc | now left].
  - apply andb_true_iff in H. destruct H as [_ H].
    unfold re_PascalCase in H. destruct w as [|c r]; [easy|].
    apply andb_true_iff in H. destruct H as [H _].
    apply andb_true_iff in H. destruct H as [H _].
    exists c. split; [now left | now left].
  - unfold re_fileExtension in H.
    apply andb_true_iff in H. destruct H as [_ H].
    apply head_is_in in H. destruct H as [c [Hc Hd]].
    apply Ascii.eqb_eq in Hd. subst c.
    exists "."%char. split; [|now right].
    apply drop_while_incl in Hc. now apply in_rev.
  - unfold re_hyphenated in H.
    apply andb_true_iff in H. destruct H as [_ H].
    destruct (drop_while is_lower_az w) as [|c r] eqn:E; [easy|].
    apply andb_true_iff in H. destruct H as [H _].
    apply andb_true_iff in H. destruct H as [H _].
    apply Ascii.eqb_eq in H. subst c.
    exists "-"%char. split; [|now right].
    apply (drop_while_incl is_lower_az). rewrite E. now left.
Qed.

(** The words are cut out of the lower-cased text at every dot and hyphen,
    so no word passes any of the four shape tests. *)
Lemma potentialTechWords_empty (text : jsstring) :
  potentialTechWords (toLowerCase text) = [].
Proof.
  unfold potentialTechWords. apply filter_none. intros w Hw.
  destruct (looks_like_tech w) eqn:E; [|reflexivity].
  apply looks_like_tech_needs in E. destruct E as [c [Hc Hbad]].
  destruct (split_runs_chars is_word_sep _ _ w (toLowerCase_no_upper text) Hw c Hc)
    as [Hsep Hup].
  destruct Hbad; congruence.
Qed.

Lemma extractTechKeywords_vocabulary (text w : jsstring) :
  In w (extractTechKeywords text) -> In w techKeywords.
Proof.
  unfold extractTechKeywords. destruct (negb (truthy_str text)); [easy|].
  rewrite dedupe_in, potentialTechWords_empty, app_nil_r.
  unfold found_keywords. rewrite filter_In. tauto.
Qed.

(** C8, the code as it is: the shape tests never add a keyword, so for
    every text the result is the vocabulary hits alone.  At the failing
    input: [fooBaz] is a camelCase token and [FooBaz] a PascalCase token
    by the expressions of the source, yet extraction returns no keyword
    for either text. *)
Theorem extractTechKeywords_shape_tests_dead :
  (forall text,
      extractTechKeywords text
      = if truthy_str text then dedupe (found_keywords (toLowerCase text))
        else [])
  /\ re_camelCase (str "fooBaz") = true
  /\ re_PascalCase (str "FooBaz") = true
  /\ extractTechKeywords (str "fooBaz") = []
  /\ extractTechKeywords (str "FooBaz") = [].
Proof.
  split.
  - intros text. unfold extractTechKeywords.
    destruct (truthy_str text); simpl; [|reflexivity].
    now rewrite potentialTechWords_empty, app_nil_r.
  - repeat split; vm_compute; reflexivity.
Qed.

(* ===================================================================== *)
(** ** The similarity function *)
(* ===================================================================== *)

(** Every string includes the empty string, so the containment tests
    answer before the length test when one input is empty. *)
Lemma similarity_empty_right (str1 : jsstring) :
  calculateStringSimilarity str1 []
  = if str_eqb str1 [] then JFin 1 else JFin (9 # 10).
Proof.
  unfold calculateStringSimilarity.
  destruct (str_eqb str1 []); [reflexivity|]. now rewrite includes_nil.
Qed.

Lemma similarity_empty_left (str2 : jsstring) :
  calculateStringSimilarity [] str2
  = if str_eqb [] str2 then JFin 1 else JFin (9 # 10).
Proof.
  unfold calculateStringSimilarity.
  destruct (str_eqb [] str2); [reflexivity|].
  destruct (includes [] str2); [reflexivity|]. now rewrite includes_nil.
Qed.

(** A direct call with an empty input: the result is 1 for two empty
    strings and 0.9 otherwise; it is never 0. *)
Theorem calculateStringSimilarity_empty_input (str1 str2 : jsstring) :
  str1 = [] \/ str2 = [] ->
  calculateStringSimilarity str1 str2
  = (if str_eqb str1 str2 then JFin 1 else JFin (9 # 10))
  /\ calculateStringSimilarity str1 str2 <> JFin 0.
Proof.
  intros H.
  assert (E : calculateStringSimilarity str1 str2
              = if str_eqb str1 str2 then JFin 1 else JFin (9 # 10)).
  { destruct H as [-> | ->];
      [apply similarity_empty_left | apply similarity_empty_right]. }
  split; [exact E|]. rewrite E. destruct (str_eqb str1 str2); discriminate.
Qed.

Lemma calculateStringSimilarity_empty_input_witness :
  calculateStringSimilarity (str "react") [] = JFin (9 # 10)
  /\ calculateStringSimilarity (str "react") [] <> JFin 0.
Proof.
  exact (calculateStringSimilarity_empty_input (str "react") [] (or_intror eq_refl)).
Defined.

(** The test [len1 === 0 || len2 === 0] is never reached with a true
    condition: the result 0 comes from the short-string rule only. *)
Lemma calculateStringSimilarity_zero_only_short (str1 str2 : jsstring) :
  calculateStringSimilarity str1 str2 = JFin 0 ->
  str1 <> [] /\ str2 <> [] /\
  ((List.length str1 < 3)%nat \/ (List.length str2 < 3)%nat).
Proof.
  intros H.
  assert (Hne : str1 <> [] /\ str2 <> []).
  { split; intros ->.
    - rewrite similarity_empty_left in H.
      destruct (str_eqb [] str2); discriminate.
    - rewrite similarity_empty_right in H.
      destruct (str_eqb str1 []); discriminate. }
  destruct Hne as [H1 H2]. repeat split; try assumption.
  unfold calculateStringSimilarity in H.
  destruct (str_eqb str1 str2); [discriminate|].
  destruct (includes str1 str2); [discriminate|].
  destruct (includes str2 str1); [discriminate|].
  destruct str1 as [|a1 r1]; [easy|]. destruct str2 as [|a2 r2]; [easy|].
  cbv zeta in H.
  replace ((List.length (a1 :: r1) =? 0)%nat || (List.length (a2 :: r2) =? 0)%nat)
    with false in H by reflexivity.
  destruct ((List.length (a1 :: r1) <? 3)%nat) eqn:E1.
  { left. now apply Nat.ltb_lt. }
  destruct ((List.length (a2 :: r2) <? 3)%nat) eqn:E2.
  { right. now apply Nat.ltb_lt. }
  exfalso. cbn [orb] in H.
  set (w1 := split_runs is_space (a1 :: r1)) in *.
  set (w2 := split_runs is_space (a2 :: r2)) in *.
  destruct (0 <? count_common w1 w2)%nat eqn:Ec.
  - apply Nat.ltb_lt in Ec. unfold jsdiv in H.
    assert (Hm : (0 < Nat.max (List.length w1) (List.length w2))%nat).
    { assert (List.length w1 <> 0)%nat; [|lia].
      intros E0. apply length_zero_iff_nil in E0.
      now apply (split_go_nonempty is_space (a1 :: r1) [] false). }
    destruct (Qeq_bool (Qnat (Nat.max (List.length w1) (List.length w2))) 0) eqn:Eq.
    + apply Qeq_bool_eq in Eq. unfold Qnat, Qeq in Eq. simpl in Eq. lia.
    + injection H as H. unfold Qnat, Qdiv, Qmult, Qinv in H. simpl in H.
      destruct (Z.of_nat (Nat.max (List.length w1) (List.length w2))) eqn:Ez;
        simpl in H; try lia; injection H as Hn _; lia.
  - destruct ((3 <=? commonPrefixLength (a1 :: r1) (a2 :: r2))%nat
              || (3 <=? commonSuffixLength (a1 :: r1) (a2 :: r2))%nat) eqn:Ep;
      [|discriminate].
    unfold jsdiv in H.
    destruct (Qeq_bool (Qnat (List.length (a1 :: r1) + List.length (a2 :: r2))) 0) eqn:Eq.
    + apply Qeq_bool_eq in Eq. unfold Qnat, Qeq in Eq. simpl in Eq. lia.
    + injection H as H. unfold Qnat, Qdiv, Qmult, Qinv in H.
      apply orb_true_iff in Ep.
      destruct (Z.of_nat (List.length (a1 :: r1) + List.length (a2 :: r2))) eqn:Ez;
        simpl in H, Ez; try lia; injection H as Hn _;
        destruct Ep as [Ep|Ep]; apply Nat.leb_le in Ep; lia.
Qed.

(* ===================================================================== *)
(** ** Skill-set construction *)
(* ===================================================================== *)

Lemma clean_NoDup (l : list jsstring) : NoDup (clean l).
Proof. apply dedupe_NoDup. Qed.

Lemma clean_entries (l : list jsstring) (x : jsstring) :
  In x (clean l) -> x <> [] /\ trim x = x.
Proof.
  unfold clean. rewrite dedupe_in, filter_In, in_map_iff.
  intros [[y [<- _]] Ht]. split.
  - intros E. rewrite E in Ht. discriminate.
  - apply trim_idempotent.
Qed.



Lemma effectiveJobSkills_nonempty (jobSkills : list jsstring) :
  effectiveJobSkills jobSkills <> [].
Proof.
  unfold effectiveJobSkills. destruct jobSkills as [|a l]; simpl; discriminate.
Qed.

(** A company name alone is enough for a non-empty extracted set. *)
Example extractSkills_company_only :
  extractSkills (Some (job_record (Some []) None None (Some (str "Acme"))))
  = map str ["Professional"; "Communication"; "Teamwork"]%string.
Proof. vm_compute. reflexivity. Qed.

(** A job whose skills array is absent or empty, whose title and
    description yield no keyword and which names no company has no
    extracted skill; the effective job skill set is then the fixed list
    communication, teamwork, problem solving, professional, so it is not
    empty. *)
Theorem job_without_skills_gets_fallback
  (sk : option (list SkillEntry)) (t d c : option jsstring) :
  opt_list sk = [] ->
  keywords_of t = [] ->
  keywords_of d = [] ->
  truthy c = false ->
  extractSkills (Some (job_record sk t d c)) = []
  /\ effectiveJobSkills (extractSkills (Some (job_record sk t d c)))
     = map str ["communication"; "teamwork"; "problem solving"; "professional"]%string
  /\ effectiveJobSkills (extractSkills (Some (job_record sk t d c))) <> [].
Proof.
  intros Hsk Ht Hd Hc.
  assert (E : extractSkills (Some (job_record sk t d c)) = []).
  { unfold extractSkills, collected_skills, job_record. cbn [Shape.skills title description bio].
    assert (Hs : match sk with Some l => entry_names l | None => [] end = []).
    { destruct sk as [l|]; [|reflexivity]. simpl in Hsk. now subst l. }
    rewrite Hs, Ht, Hd.
    unfold data_part, linkedin_part, github_part, is_linkedin, is_github,
      platform_is, username_includes, username_excludes,
      username_fallback, company_fallback.
    cbn [data platform username company keywords_of app orb List.length Nat.eqb andb truthy].
    rewrite Hc. reflexivity. }
  rewrite E. split; [reflexivity|]. split; [reflexivity | discriminate].
Qed.

Lemma job_without_skills_gets_fallback_witness :
  extractSkills (Some (job_record (Some []) (Some (str "Chef")) None None)) = []
  /\ effectiveJobSkills
       (extractSkills (Some (job_record (Some []) (Some (str "Chef")) None None)))
     = map str ["communication"; "teamwork"; "problem solving"; "professional"]%string
  /\ effectiveJobSkills
       (extractSkills (Some (job_record (Some []) (Some (str "Chef")) None None)))
     <> [].
Proof.
  apply (job_without_skills_gets_fallback (Some []) (Some (str "Chef")) None None);
    vm_compute; reflexivity.
Defined.

(* ===================================================================== *)
(** ** performLocalMatch *)
(* ===================================================================== *)

(** C5, for the service: with no extracted profile skill,
    [performLocalMatch] returns the score 0.3, no matched skill, the whole
    effective job skill set as missing, and its message. *)
Theorem performLocalMatch_no_profile_skills (profile job : option Obj) :
  extractSkills profile = [] ->
  performLocalMatch profile job
  = mkMatchResult (JFin (3 # 10)) (JFin (3 # 10)) []
      (effectiveJobSkills (extractSkills job))
      (Some (str "No profile skills found for matching")) None.
Proof. intros H. unfold performLocalMatch. rewrite H. reflexivity. Qed.

Lemma performLocalMatch_no_profile_skills_witness :
  performLocalMatch (Some profile_no_skills) (Some job_sql)
  = mkMatchResult (JFin (3 # 10)) (JFin (3 # 10)) [] [str "SQL"]
      (Some (str "No profile skills found for matching")) None.
Proof.
  exact (performLocalMatch_no_profile_skills (Some profile_no_skills)
           (Some job_sql) eq_refl).
Defined.

(** C5, the claim refuted on the page's matcher: a profile without skills
    against the job asking for SQL scores 0, not 0.3, and the result has
    no message other than the recommendation of the lowest tier. *)
Lemma calculateLocalMatch_no_profile_skills_scores_zero :
  extractProfileSkills (Some profile_no_skills) = [] /\
  extractSkills (Some profile_no_skills) = [] /\
  overall_match (calculateLocalMatch (Some profile_no_skills) (Some job_sql))
  = JFin 0 /\
  missing_skills (calculateLocalMatch (Some profile_no_skills) (Some job_sql))
  = [str "SQL"].
Proof. repeat split; vm_compute; reflexivity. Qed.

Lemma clamp01_bounds (x : jsnum) :
  isNaN x = false -> exists q, clamp01 x = JFin q /\ 0 <= q /\ q <= 1.
Proof.
  destruct x as [| | |q]; simpl; intros H; try discriminate.
  - exists 1. repeat split; [discriminate | apply Qle_refl].
  - exists 0. repeat split; [apply Qle_refl | discriminate].
  - eexists. split; [reflexivity|].
    unfold Qmax2, Qmin2.
    destruct (Qle_bool 1 q) eqn:E1.
    + replace (Qle_bool 0 1) with true by reflexivity. split; [discriminate | apply Qle_refl].
    + destruct (Qle_bool 0 q) eqn:E0.
      * apply Qle_bool_iff in E0. split; [exact E0|].
        apply Qlt_le_weak, Qnot_le_lt. intros Hle.
        apply Qle_bool_iff in Hle. congruence.
      * split; [apply Qle_refl | discriminate].
Qed.

(** The score of the service is always a number between 0 and 1. *)
Lemma performLocalMatch_score_in_unit_interval (profile job : option Obj) :
  exists q, overall_score (performLocalMatch profile job) = JFin q
            /\ 0 <= q /\ q <= 1.
Proof.
  unfold performLocalMatch.
  destruct (List.length (extractSkills profile) =? 0)%nat.
  - exists (3 # 10). repeat split; discriminate.
  - cbn [overall_score].
    match goal with |- context [isNaN ?s] => destruct (isNaN s) eqn:E end.
    + exists (1 # 2). repeat split; discriminate.
    + now apply clamp01_bounds.
Qed.

(* ===================================================================== *)
(** ** calculateLocalMatch *)
(* ===================================================================== *)

Lemma find_first {A : Type} (f : A -> bool) (l : list A) :
  match find f l with
  | Some p => exists before after,
      l = before ++ p :: after
      /\ Forall (fun q => f q = false) before /\ f p = true
  | None => Forall (fun q => f q = false) l
  end.
Proof.
  induction l as [|a l IH]; simpl; [constructor|].
  destruct (f a) eqn:E.
  - exists [], l. repeat split; [constructor | exact E].
  - destruct (find f l) as [p|].
    + destruct IH as [before [after [-> [Hb Hp]]]].
      exists (a :: before), after. repeat split; [constructor|]; assumption.
    + now constructor.
Qed.

(** The names pushed by the loop, in the order of the job skills. *)
Lemma loop_names (ps : list ProfileSkill) (js : list JobSkill) (acc : Acc) :
  map skill_name (skillMatches (fold_left (job_step ps) js acc))
  = map skill_name (skillMatches acc) ++ map j_name (filter (has_match ps) js)
  /\
  map ms_name (missingSkills (fold_left (job_step ps) js acc))
  = map ms_name (missingSkills acc)
    ++ map j_name (filter (fun j => negb (has_match ps j)) js).
Proof.
  revert acc. induction js as [|j js IH]; intros acc; simpl.
  - now rewrite !app_nil_r.
  - destruct (IH (job_step ps acc j)) as [IH1 IH2]. rewrite IH1, IH2.
    unfold job_step, has_match.
    destruct (matchingSkill ps j) as [p|]; cbn [skillMatches missingSkills negb map];
      rewrite ?map_app, <- ?app_assoc; split; reflexivity.
Qed.

Lemma filter_split_perm {A : Type} (f : A -> bool) (l : list A) :
  Permutation (filter f l ++ filter (fun x => negb (f x)) l) l.
Proof.
  induction l as [|a l IH]; simpl; [constructor|].
  destruct (f a); simpl.
  - now constructor.
  - apply Permutation_sym, Permutation_cons_app, Permutation_sym, IH.
Qed.

Lemma has_match_by_name (ps : list ProfileSkill) (j1 j2 : JobSkill) :
  j_name j1 = j_name j2 -> has_match ps j1 = has_match ps j2.
Proof. unfold has_match, matchingSkill. now intros ->. Qed.

(** C3, for the page's matcher: the names in [skill_matches] followed by
    the names in [missing_skills] are the job skill names, each job skill
    counted once, and no name is in both lists. *)
Theorem calculateLocalMatch_partitions_job_skills (profile job : option Obj) :
  Permutation
    (map skill_name (skill_matches (calculateLocalMatch profile job))
     ++ missing_skills (calculateLocalMatch profile job))
    (map j_name (extractJobSkills job))
  /\ forall n,
       ~ (In n (map skill_name (skill_matches (calculateLocalMatch profile job)))
          /\ In n (missing_skills (calculateLocalMatch profile job))).
Proof.
  unfold calculateLocalMatch. cbn [skill_matches missing_skills].
  unfold run_loop.
  set (ps := extractProfileSkills profile). set (js := extractJobSkills job).
  destruct (loop_names ps js (mkAcc 0 0 [] [])) as [E1 E2].
  simpl in E1, E2. rewrite E1, E2. split.
  - rewrite <- map_app. apply Permutation_map, filter_split_perm.
  - intros n [H1 H2].
    apply in_map_iff in H1. destruct H1 as [j1 [N1 F1]].
    apply in_map_iff in H2. destruct H2 as [j2 [N2 F2]].
    apply filter_In in F1. apply filter_In in F2.
    destruct F1 as [_ F1]. destruct F2 as [_ F2].
    rewrite (has_match_by_name ps j1 j2) in F1 by congruence.
    rewrite F1 in F2. discriminate.
Qed.

(** C3, the claim refuted on the service: the profile skill [ReactJS]
    matches the job skill [React]; the matched list then holds the profile
    name, the missing list holds [Python], and [React] is in neither. *)
Lemma performLocalMatch_drops_matched_job_skill :
  effectiveJobSkills (extractSkills (Some job_react_python))
  = [str "React"; str "Python"]
  /\ skills_matched (performLocalMatch (Some profile_reactjs) (Some job_react_python))
     = [str "ReactJS"]
  /\ skills_missing (performLocalMatch (Some profile_reactjs) (Some job_react_python))
     = [str "Python"]
  /\ ~ In (str "React")
         (skills_matched (performLocalMatch (Some profile_reactjs) (Some job_react_python))
          ++ skills_missing (performLocalMatch (Some profile_reactjs) (Some job_react_python))).
Proof.
  split; [vm_compute; reflexivity|].
  split; [vm_compute; reflexivity|].
  split; [vm_compute; reflexivity|].
  vm_compute. intros [H|[H|[]]]; discriminate.
Qed.

(** C1, at the failing inputs: a job without any skill makes the total
    importance zero, and the page's matcher returns NaN as its score. *)
Theorem calculateLocalMatch_no_job_skills_is_NaN (profile job : option Obj) :
  extractJobSkills job = [] ->
  overall_match (calculateLocalMatch profile job) = JNaN.
Proof.
  intros H. unfold calculateLocalMatch. rewrite H. reflexivity.
Qed.

Lemma calculateLocalMatch_no_job_skills_is_NaN_witness :
  overall_match (calculateLocalMatch (Some profile_A) (Some job_no_skills)) = JNaN.
Proof.
  exact (calculateLocalMatch_no_job_skills_is_NaN (Some profile_A)
           (Some job_no_skills) eq_refl).
Defined.

Lemma extractJobSkills_drops_required (job : option Obj) :
  Forall (fun j => j_required j = None) (extractJobSkills job).
Proof.
  destruct job as [o|]; simpl; [|constructor].
  induction (opt_list (skills o)) as [|e l IH]; simpl; [constructor|].
  apply Forall_app. split; [|exact IH].
  destruct e as [s|so]; [repeat constructor|].
  destruct (name so) as [n|]; [|constructor].
  destruct (truthy_str n); repeat constructor.
Qed.

Lemma loop_required (ps : list ProfileSkill) (js : list JobSkill) (acc : Acc) :
  Forall (fun j => j_required j = None) js ->
  Forall (fun m => ms_required m = false) (missingSkills acc) ->
  Forall (fun m => ms_required m = false)
         (missingSkills (fold_left (job_step ps) js acc)).
Proof.
  revert acc. induction js as [|j js IH]; intros acc Hjs Hacc; simpl; [exact Hacc|].
  inversion Hjs as [|? ? Hj Hrest]; subst.
  apply IH; [exact Hrest|].
  unfold job_step. destruct (matchingSkill ps j); cbn [missingSkills]; [exact Hacc|].
  apply Forall_app. split; [exact Hacc|].
  constructor; [|constructor]. simpl. now rewrite Hj.
Qed.

(** The note on missing required skills is never appended: the
    recommendation is always the bare tier text. *)
Lemma recommendation_is_bare_tier (profile job : option Obj) :
  recommendation (calculateLocalMatch profile job)
  = tier (overall_match (calculateLocalMatch profile job)).
Proof.
  unfold calculateLocalMatch. cbn [recommendation overall_match].
  rewrite (filter_none ms_required); [reflexivity|].
  intros m Hm.
  pose proof (loop_required (extractProfileSkills profile) (extractJobSkills job)
                (mkAcc 0 0 [] []) (extractJobSkills_drops_required job)
                (Forall_nil _)) as H.
  rewrite Forall_forall in H. now apply H.
Qed.

(** C4, at the failing input: Scenario A through the page's matcher.
    React is matched with quality, score and weighted score 1, Python is
    missing, the score is 56 percent and the tier is Moderate; the
    [required] flag of Python is lost, so no note follows the tier text.
    No input ever gets the note: the recommendation is always the bare
    tier text. *)
Theorem calculateLocalMatch_scenario_A :
  calculateLocalMatch (Some profile_A) (Some job_A)
  = mkLocalMatch
      (JFin 56)
      [mkSkillMatch (str "React") 1 1 1 1 1 false]
      [str "Python"]
      [mkMissingSkill (str "Python") (8 # 10) false]
      [str "React"]
      (str "Moderate Match: This candidate has some of the required skills but may need significant training or may not be ideal for this specific role.")
  /\ forall profile job,
       recommendation (calculateLocalMatch profile job)
       = tier (overall_match (calculateLocalMatch profile job)).
Proof.
  split.
  - vm_compute. reflexivity.
  - apply recommendation_is_bare_tier.
Qed.

(** One round of the loop: for a job skill, with importance 0.5 when it
    has none, the page's matcher takes the first profile skill, in list
    order, whose lower-cased name equals, contains or is contained in the
    lower-cased job skill name.  The job skill is matched exactly when
    there is one; the quality is 1 when the two lower-cased names are
    equal and 0.7 otherwise, and the match score is the quality times the
    proficiency, 1 when the profile skill has none.  Otherwise the job
    skill is recorded as missing. *)
Theorem job_step_takes_first_related (ps : list ProfileSkill) (acc : Acc)
  (j : JobSkill) :
  (exists before p after,
      ps = before ++ p :: after
      /\ Forall (fun q => name_related (toLowerCase (j_name j)) q = false) before
      /\ name_related (toLowerCase (j_name j)) p = true
      /\ missingSkills (job_step ps acc j) = missingSkills acc
      /\ skillMatches (job_step ps acc j)
         = skillMatches acc
           ++ [mkSkillMatch
                 (j_name j)
                 (num_or (j_importance j) (1 # 2))
                 (num_or (p_proficiency p) 1)
                 (if str_eqb (toLowerCase (p_name p)) (toLowerCase (j_name j))
                  then 1 else 7 # 10)
                 ((if str_eqb (toLowerCase (p_name p)) (toLowerCase (j_name j))
                   then 1 else 7 # 10)
                  * num_or (p_proficiency p) 1)
                 (num_or (j_importance j) (1 # 2)
                  * ((if str_eqb (toLowerCase (p_name p)) (toLowerCase (j_name j))
                      then 1 else 7 # 10)
                     * num_or (p_proficiency p) 1))
                 (bool_or_false (j_required j))])
  \/
  (Forall (fun q => name_related (toLowerCase (j_name j)) q = false) ps
   /\ skillMatches (job_step ps acc j) = skillMatches acc
   /\ missingSkills (job_step ps acc j)
      = missingSkills acc
        ++ [mkMissingSkill (j_name j) (num_or (j_importance j) (1 # 2))
                           (bool_or_false (j_required j))]).
Proof.
  pose proof (find_first (name_related (toLowerCase (j_name j))) ps) as H.
  unfold job_step, matchingSkill.
  destruct (find (name_related (toLowerCase (j_name j))) ps) as [p|].
  - left. destruct H as [before [after [E [Hb Hp]]]].
    exists before, p, after. repeat split; assumption.
  - right. repeat split. exact H.
Qed.

(** C2, the claim refuted.  The profile skill [js] has similarity 0.7 to
    the job skill [java], above the threshold, yet the job skill is
    reported missing.  With the profile skills [JavaScript] and [Java],
    the job skill [Java] is most similar to [Java], with quality 1, yet it
    is paired with [JavaScript] and gets quality 0.7. *)
Lemma calculateLocalMatch_ignores_similarity :
  SpecWords.spec_matched (str "java") (extractProfileSkills (Some profile_js)) = true
  /\ skill_matches (calculateLocalMatch (Some profile_js) (Some job_java)) = []
  /\ missing_skills (calculateLocalMatch (Some profile_js) (Some job_java))
     = [str "java"]
  /\ SpecWords.best_candidate (str "Java")
       (extractProfileSkills (Some profile_two_javas))
     = Some (mkProfileSkill (str "Java") None, 1)
  /\ SpecWords.spec_quality (str "Java") (mkProfileSkill (str "Java") None) = 1
  /\ map match_quality
       (skill_matches (calculateLocalMatch (Some profile_two_javas) (Some job_Java)))
     = [7 # 10].
Proof. repeat (split; [vm_compute; reflexivity|]). vm_compute. reflexivity. Qed.

(** In the service a job skill is missing exactly when no profile skill
    reaches the similarity threshold against it. *)
Lemma missingSkills_of_spec (ps eff : list jsstring) (j : jsstring) :
  In j (missingSkills_of ps eff)
  <-> In j eff /\ Forall (fun p => similar p j = false) ps.
Proof.
  unfold missingSkills_of. rewrite filter_In, negb_true_iff.
  rewrite Forall_forall. split; intros [H1 H2]; split; try assumption.
  - intros p Hp. destruct (similar p j) eqn:E; [|reflexivity].
    assert (existsb (fun pSkill => similar pSkill j) ps = true); [|congruence].
    apply existsb_exists. now exists p.
  - destruct (existsb (fun pSkill => similar pSkill j) ps) eqn:E; [|reflexivity].
    apply existsb_exists in E. destruct E as [p [Hp Hs]].
    rewrite (H2 p Hp) in Hs. discriminate.
Qed.

(** The matched list of the service holds profile skills only. *)
Lemma matchedSkills_of_from_profile (ps eff : list jsstring) (x : jsstring) :
  In x (matchedSkills_of ps eff) -> In x ps.
Proof.
  unfold matchedSkills_of.
  assert (G : forall l acc, In x (fold_left (match_step eff) l acc) ->
                            In x acc \/ In x l).
  { induction l as [|p l IH]; intros acc H; simpl in *; [now left|].
    apply IH in H. destruct H as [H|H]; [|right; now right].
    unfold match_step in H.
    destruct (truthy (find (fun jSkill => similar p jSkill) eff)
              && negb (existsb (str_eqb p) acc)); [|now left].
    apply in_app_or in H. destruct H as [H|[<-|[]]]; [now left | right; now left]. }
  intros H. apply G in H. destruct H as [[]|H]. exact H.
Qed.

(* ===================================================================== *)
(** ** calculateMatch and calculateCombinedMatch *)
(* ===================================================================== *)

(** The job after the common prologue. *)
Lemma fill_job_skills_store {P : Type} (s : Store P) :
  snd (fill_job_skills s)
  = mkStore (st_profile s)
      (if truthy (description (st_job s)) && no_skills (st_job s)
       then set_skills (st_job s)
              (map SkStr
                 (extractTechKeywords
                    (match description (st_job s) with
                     | Some d => d
                     | None => []
                     end)))
       else st_job s).
Proof.
  unfold fill_job_skills, bind, read_job, write_job_skills, ret.
  destruct (truthy (description (st_job s)) && no_skills (st_job s));
    [reflexivity | now destruct s].
Qed.

(** C9, as the code has it: both entry points leave the profile records
    as they are, and leave the job record as it is unless it has a
    description and no skill; in that case they overwrite [job.skills]
    with the keywords of the description.  The result is a new value,
    computed by [performLocalMatch] from the job as it is after that
    write. *)
Theorem calculateMatch_store_effect :
  (forall s : Store Obj,
      st_profile (snd (calculateMatch s)) = st_profile s
      /\ st_job (snd (calculateMatch s))
         = (if truthy (description (st_job s)) && no_skills (st_job s)
            then set_skills (st_job s)
                   (map SkStr
                      (extractTechKeywords
                         (match description (st_job s) with
                          | Some d => d
                          | None => []
                          end)))
            else st_job s)
      /\ fst (calculateMatch s)
         = performLocalMatch (Some (st_profile s))
             (Some (st_job (snd (calculateMatch s)))))
  /\
  (forall s : Store (list Obj),
      st_profile (snd (calculateCombinedMatch s)) = st_profile s
      /\ st_job (snd (calculateCombinedMatch s))
         = (if truthy (description (st_job s)) && no_skills (st_job s)
            then set_skills (st_job s)
                   (map SkStr
                      (extractTechKeywords
                         (match description (st_job s) with
                          | Some d => d
                          | None => []
                          end)))
            else st_job s)
      /\ fst (calculateCombinedMatch s)
         = with_platforms
             (performLocalMatch
                (Some (set_skills empty_obj
                         (map SkStr
                            (dedupe (flat_map (fun p => extractSkills (Some p))
                                              (st_profile s))))))
                (Some (st_job (snd (calculateCombinedMatch s)))))
             (flat_map (fun p => if_truthy (platform p)) (st_profile s))).
Proof.
  split; intros s.
  - pose proof (fill_job_skills_store s) as H.
    unfold calculateMatch, bind, read_profile, read_job, ret.
    destruct (fill_job_skills s) as [u s']. simpl in H. subst s'. simpl.
    repeat split; reflexivity.
  - pose proof (fill_job_skills_store s) as H.
    unfold calculateCombinedMatch, bind, read_profile, read_job, ret.
    destruct (fill_job_skills s) as [u s']. simpl in H. subst s'. simpl.
    repeat split; reflexivity.
Qed.

(** C9, the claim refuted: a job with a description and no [skills]
    property has one after [calculateMatch], and after
    [calculateCombinedMatch]. *)
Lemma calculateMatch_writes_job_skills :
  skills job_described = None
  /\ skills (st_job (snd (calculateMatch (mkStore profile_A job_described))))
     = Some [SkStr (str "React"); SkStr (str "R"); SkStr (str "Developer")]
  /\ skills (st_job (snd (calculateCombinedMatch (mkStore [profile_A] job_described))))
     = Some [SkStr (str "React"); SkStr (str "R"); SkStr (str "Developer")].
Proof. repeat (split; [vm_compute; reflexivity|]). vm_compute. reflexivity. Qed.

(* ===================================================================== *)
(** ** More on the primitives *)
(* ===================================================================== *)

Lemma startsWith_iff (s p : jsstring) :
  startsWith s p = true <-> exists b, s = p ++ b.
Proof.
  revert s. induction p as [|a p IH]; intros s.
  - rewrite startsWith_nil. split; [intros _; now exists s | reflexivity].
  - destruct s as [|c s]; simpl.
    + split; [discriminate | intros [b H]; discriminate].
    + rewrite andb_true_iff, Ascii.eqb_eq, IH. split.
      * intros [-> [b ->]]. now exists b.
      * intros [b H]. injection H as -> ->. split; [reflexivity | now exists b].
Qed.

Lemma includes_iff (s t : jsstring) :
  includes s t = true <-> exists a b, s = a ++ t ++ b.
Proof.
  induction s as [|c s IH].
  - change (includes [] t) with (startsWith [] t || false).
    rewrite orb_false_r, startsWith_iff. split.
    + intros [b H]. now exists [], b.
    + intros [a [b H]]. destruct a; [now exists b | discriminate].
  - change (includes (c :: s) t) with (startsWith (c :: s) t || includes s t).
    rewrite orb_true_iff, startsWith_iff, IH. split.
    + intros [[b H] | [a [b H]]].
      * now exists [], b.
      * exists (c :: a), b. simpl. now rewrite H.
    + intros [a [b H]]. destruct a as [|x a].
      * left. now exists b.
      * right. injection H as _ H. now exists a, b.
Qed.

Lemma includes_refl (s : jsstring) : includes s s = true.
Proof. apply includes_iff. exists [], []. simpl. now rewrite app_nil_r. Qed.

Lemma includes_trans (s t u : jsstring) :
  includes s t = true -> includes t u = true -> includes s u = true.
Proof.
  rewrite !includes_iff. intros [a [b ->]] [c [d ->]].
  exists (a ++ c), (d ++ b). now rewrite <- !app_assoc.
Qed.

Lemma includes_within (a s b t : jsstring) :
  includes s t = true -> includes (a ++ s ++ b) t = true.
Proof.
  intros H. apply includes_trans with s; [|exact H].
  apply includes_iff. now exists a, b.
Qed.

Lemma includes_toLowerCase (s t : jsstring) :
  includes s t = true -> includes (toLowerCase s) (toLowerCase t) = true.
Proof.
  rewrite !includes_iff. intros [a [b ->]].
  exists (toLowerCase a), (toLowerCase b). unfold toLowerCase.
  now rewrite !map_app.
Qed.

Lemma lower_char_idempotent (c : ascii) : lower_char (lower_char c) = lower_char c.
Proof. destruct c as [[] [] [] [] [] [] [] []]; reflexivity. Qed.

Lemma toLowerCase_idempotent (s : jsstring) :
  toLowerCase (toLowerCase s) = toLowerCase s.
Proof.
  unfold toLowerCase. rewrite map_map. apply map_ext. apply lower_char_idempotent.
Qed.

Lemma truthy_toLowerCase (s : jsstring) :
  truthy_str (toLowerCase s) = truthy_str s.
Proof. now destruct s. Qed.

Lemma Qnat_pos (n : nat) : (0 < n)%nat -> 0 < Qnat n.
Proof.
  intros H. unfold Qnat. change 0 with (inject_Z 0). rewrite <- Zlt_Qlt. lia.
Qed.

Lemma Qnat_nonneg (n : nat) : 0 <= Qnat n.
Proof. unfold Qnat. change 0 with (inject_Z 0). rewrite <- Zle_Qle. lia. Qed.

Lemma Qnat_le (a b : nat) : (a <= b)%nat -> Qnat a <= Qnat b.
Proof. intros H. unfold Qnat. rewrite <- Zle_Qle. lia. Qed.

(** A quotient of two lengths, the smaller over the larger. *)
Lemma jsdiv_ratio (a b : nat) :
  (0 < b)%nat -> (a <= b)%nat ->
  exists q, jsdiv (Qnat a) (Qnat b) = JFin q /\ 0 <= q /\ q <= 1.
Proof.
  intros Hb Hab. unfold jsdiv.
  pose proof (Qnat_pos b Hb) as Hpos.
  destruct (Qeq_bool (Qnat b) 0) eqn:E.
  - apply Qeq_bool_eq in E. rewrite E in Hpos. now apply Qlt_irrefl in Hpos.
  - eexists. split; [reflexivity|]. split.
    + apply Qle_shift_div_l; [exact Hpos|]. rewrite Qmult_0_l. apply Qnat_nonneg.
    + apply Qle_shift_div_r; [exact Hpos|]. rewrite Qmult_1_l. now apply Qnat_le.
Qed.

Lemma commonPrefix_go_le (a b : jsstring) :
  (commonPrefix_go a b <= List.length a)%nat
  /\ (commonPrefix_go a b <= List.length b)%nat.
Proof.
  revert b. induction a as [|x a IH]; intros b; simpl; [lia|].
  destruct b as [|y b]; simpl; [lia|].
  destruct (Ascii.eqb x y); [|lia]. destruct (IH b). lia.
Qed.

Lemma commonPrefix_go_spec (a b : jsstring) :
  firstn (commonPrefix_go a b) a = firstn (commonPrefix_go a b) b
  /\ forall m, (m <= List.length a)%nat -> (m <= List.length b)%nat ->
               firstn m a = firstn m b -> (m <= commonPrefix_go a b)%nat.
Proof.
  revert b. induction a as [|x a IH]; intros b.
  - simpl. split; [now destruct b | intros m Hm _ _; simpl in Hm; lia].
  - destruct b as [|y b].
    + simpl. split; [reflexivity | intros m _ Hm _; lia].
    + simpl. destruct (Ascii.eqb x y) eqn:E.
      * apply Ascii.eqb_eq in E. subst y. destruct (IH b) as [IH1 IH2]. split.
        -- simpl. now rewrite IH1.
        -- intros [|m] Ha Hb Hf; [lia|]. simpl in Hf. injection Hf as Hf.
           apply le_n_S. apply IH2; [lia | lia | exact Hf].
      * split; [reflexivity|].
        intros [|m] _ _ Hf; [lia|]. simpl in Hf. injection Hf as Hxy _.
        subst y. rewrite Ascii.eqb_refl in E. discriminate.
Qed.

(* ===================================================================== *)
(** ** More on the similarity function *)
(* ===================================================================== *)

(** X1: the similarity of any two strings is a finite number between 0
    and 1; it is never NaN. *)
Theorem calculateStringSimilarity_range (str1 str2 : jsstring) :
  exists q, calculateStringSimilarity str1 str2 = JFin q /\ 0 <= q /\ q <= 1.
Proof.
  unfold calculateStringSimilarity.
  destruct (str_eqb str1 str2).
  { exists 1. repeat split; [discriminate | apply Qle_refl]. }
  destruct (includes str1 str2).
  { exists (9 # 10). repeat split; discriminate. }
  destruct (includes str2 str1).
  { exists (9 # 10). repeat split; discriminate. }
  cbv zeta.
  destruct ((List.length str1 =? 0)%nat || (List.length str2 =? 0)%nat).
  { exists 0. repeat split; [apply Qle_refl | discriminate]. }
  destruct ((List.length str1 <? 3)%nat || (List.length str2 <? 3)%nat).
  { destruct (str_eqb (firstn 1 str1) (firstn 1 str2)).
    - exists (7 # 10). repeat split; discriminate.
    - exists 0. repeat split; [apply Qle_refl | discriminate]. }
  set (w1 := split_runs is_space str1). set (w2 := split_runs is_space str2).
  destruct (0 <? count_common w1 w2)%nat eqn:Ec.
  { apply Nat.ltb_lt in Ec. apply jsdiv_ratio.
    - assert (count_common w1 w2 <= List.length w1)%nat by apply filter_length_le.
      lia.
    - assert (count_common w1 w2 <= List.length w1)%nat by apply filter_length_le.
      lia. }
  destruct ((3 <=? commonPrefixLength str1 str2)%nat
            || (3 <=? commonSuffixLength str1 str2)%nat) eqn:Ep.
  - unfold commonPrefixLength, commonSuffixLength in *.
    destruct (commonPrefix_go_le str1 str2) as [P1 _].
    destruct (commonPrefix_go_le (rev str1) (rev str2)) as [_ S2].
    rewrite length_rev in S2.
    apply orb_true_iff in Ep.
    apply jsdiv_ratio; [|lia].
    destruct Ep as [Ep|Ep]; apply Nat.leb_le in Ep; lia.
  - exists (1 # 10). repeat split; discriminate.
Qed.

(** X2: the similarity is exactly 0 only for two non-empty strings of
    which one has fewer than three characters. *)
Theorem calculateStringSimilarity_zero_is_short (str1 str2 : jsstring) :
  calculateStringSimilarity str1 str2 = JFin 0 ->
  str1 <> [] /\ str2 <> [] /\
  ((List.length str1 < 3)%nat \/ (List.length str2 < 3)%nat).
Proof. apply calculateStringSimilarity_zero_only_short. Qed.

Lemma calculateStringSimilarity_zero_is_short_witness :
  str "go" <> [] /\ str "php" <> [] /\
  ((List.length (str "go") < 3)%nat \/ (List.length (str "php") < 3)%nat).
Proof.
  apply (calculateStringSimilarity_zero_is_short (str "go") (str "php")).
  vm_compute. reflexivity.
Defined.

(** Equal or nested strings are similar enough to count as a match. *)
Lemma nested_is_similar (s1 s2 : jsstring) :
  str_eqb s1 s2 || includes s1 s2 || includes s2 s1 = true ->
  ge_const (calculateStringSimilarity s1 s2) similarityThreshold = true.
Proof.
  intros H. unfold calculateStringSimilarity.
  destruct (str_eqb s1 s2); [reflexivity|].
  destruct (includes s1 s2); [reflexivity|].
  destruct (includes s2 s1); [reflexivity|].
  discriminate.
Qed.

(** X3: two skills that [isSimilarSkill] accepts pass the similarity
    threshold of [performLocalMatch]. *)
Theorem isSimilarSkill_implies_similar (skill1 skill2 : jsstring) :
  isSimilarSkill (Some skill1) (Some skill2) = true ->
  similar skill1 skill2 = true.
Proof.
  unfold isSimilarSkill, similar.
  destruct (negb (truthy_str skill1) || negb (truthy_str skill2)); [discriminate|].
  apply nested_is_similar.
Qed.

Lemma isSimilarSkill_implies_similar_witness :
  similar (str "ReactJS") (str "react") = true.
Proof.
  apply (isSimilarSkill_implies_similar (str "ReactJS") (str "react")).
  vm_compute. reflexivity.
Defined.



(** X5: [commonPrefixLength] is the length of the longest common prefix,
    and [commonSuffixLength] that of the longest common suffix. *)
Theorem common_lengths_are_longest (str1 str2 : jsstring) :
  (firstn (commonPrefixLength str1 str2) str1
   = firstn (commonPrefixLength str1 str2) str2
   /\ forall m, (m <= List.length str1)%nat -> (m <= List.length str2)%nat ->
                firstn m str1 = firstn m str2 ->
                (m <= commonPrefixLength str1 str2)%nat)
  /\
  (skipn (List.length str1 - commonSuffixLength str1 str2) str1
   = skipn (List.length str2 - commonSuffixLength str1 str2) str2
   /\ forall m, (m <= List.length str1)%nat -> (m <= List.length str2)%nat ->
                skipn (List.length str1 - m) str1
                = skipn (List.length str2 - m) str2 ->
                (m <= commonSuffixLength str1 str2)%nat).
Proof.
  split; [apply commonPrefix_go_spec|].
  unfold commonSuffixLength.
  destruct (commonPrefix_go_spec (rev str1) (rev str2)) as [H1 H2]. split.
  - rewrite !firstn_rev in H1.
    apply (f_equal (@rev ascii)) in H1. now rewrite !rev_involutive in H1.
  - intros m Ha Hb Hm. apply H2; rewrite ?length_rev; try assumption.
    rewrite !firstn_rev. now rewrite Hm.
Qed.

(* ===================================================================== *)
(** ** More on keyword extraction *)
(* ===================================================================== *)

Lemma keyword_in_iff (text w : jsstring) :
  In w (extractTechKeywords text)
  <-> text <> [] /\ In w techKeywords
      /\ includes (toLowerCase text) (toLowerCase w) = true.
Proof.
  unfold extractTechKeywords. destruct text as [|c text]; simpl negb; cbv iota.
  - split; [intros [] | intros [H _]; now destruct H].
  - rewrite dedupe_in, potentialTechWords_empty, app_nil_r.
    unfold found_keywords. rewrite filter_In.
    split; [intros [H1 H2]; repeat split; [discriminate | exact H1 | exact H2]
           | intros [_ H]; exact H].
Qed.

(** X6: the keywords of a text are exactly the vocabulary entries that
    occur in the text as substrings, without regard to letter case and to
    word boundaries; no keyword is returned twice, and the empty text has
    none. *)
Theorem extractTechKeywords_spec (text : jsstring) :
  NoDup (extractTechKeywords text)
  /\ forall w,
       In w (extractTechKeywords text)
       <-> text <> [] /\ In w techKeywords
           /\ includes (toLowerCase text) (toLowerCase w) = true.
Proof.
  split; [|intros w; apply keyword_in_iff].
  unfold extractTechKeywords. destruct (negb (truthy_str text));
    [constructor | apply dedupe_NoDup].
Qed.

(** X7: the keywords of a text do not depend on its letter case. *)
Theorem extractTechKeywords_ignores_case (text : jsstring) :
  extractTechKeywords (toLowerCase text) = extractTechKeywords text.
Proof.
  unfold extractTechKeywords.
  now rewrite truthy_toLowerCase, toLowerCase_idempotent.
Qed.

(** X8: a text that contains another text has all the keywords of that
    text. *)
Theorem extractTechKeywords_monotone (text1 text2 : jsstring) :
  includes text2 text1 = true ->
  incl (extractTechKeywords text1) (extractTechKeywords text2).
Proof.
  intros H w Hw. apply keyword_in_iff in Hw. destruct Hw as [Hne [Hv Hi]].
  apply keyword_in_iff. repeat split; [|exact Hv|].
  - intros ->. apply includes_iff in H. destruct H as [a [b H]].
    destruct a; [destruct text1; [now apply Hne | discriminate] | discriminate].
  - apply includes_trans with (toLowerCase text1); [|exact Hi].
    now apply includes_toLowerCase.
Qed.

Lemma extractTechKeywords_monotone_witness :
  incl (extractTechKeywords (str "React"))
       (extractTechKeywords (str "Senior React developer")).
Proof.
  apply (extractTechKeywords_monotone (str "React") (str "Senior React developer")).
  vm_compute. reflexivity.
Defined.

(* ===================================================================== *)
(** ** More on skill-set construction *)
(* ===================================================================== *)

Lemma clean_in_iff (l : list jsstring) (x : jsstring) :
  In x (clean l) <-> x <> [] /\ exists y, In y l /\ trim y = x.
Proof.
  unfold clean. rewrite dedupe_in, filter_In, in_map_iff. split.
  - intros [[y [E Hy]] Ht]. split; [|now exists y].
    intros ->. discriminate.
  - intros [Hne [y [Hy E]]]. split; [now exists y|].
    destruct x; [now destruct Hne | reflexivity].
Qed.

Lemma username_fallback_extends (obj : Obj) (l : list jsstring) :
  exists e, username_fallback obj l = l ++ e.
Proof.
  unfold username_fallback.
  destruct ((List.length l =? 0)%nat && truthy (username obj));
    [|exists []; now rewrite app_nil_r].
  cbv zeta.
  set (kw := extractTechKeywords _).
  destruct (0 <? List.length kw)%nat.
  - destruct (List.length (l ++ kw) =? 0)%nat.
    + destruct (is_github obj); [|destruct (is_linkedin obj)];
        rewrite <- ?app_assoc; eexists; reflexivity.
    + eexists; reflexivity.
  - destruct (List.length l =? 0)%nat.
    + destruct (is_github obj); [|destruct (is_linkedin obj)];
        try (eexists; reflexivity). exists []. now rewrite app_nil_r.
    + exists []. now rewrite app_nil_r.
Qed.

Lemma company_fallback_extends (obj : Obj) (l : list jsstring) :
  exists e, company_fallback obj l = l ++ e.
Proof.
  unfold company_fallback.
  destruct ((List.length l =? 0)%nat && truthy (company obj)).
  - rewrite <- app_assoc. eexists; reflexivity.
  - exists []. now rewrite app_nil_r.
Qed.

(** Whatever one of the sources pushes stays in the collected array. *)
Lemma collected_parts (obj : Obj) (x : jsstring) :
  In x (entry_names (opt_list (skills obj)))
  \/ In x (data_part obj) \/ In x (linkedin_part obj) \/ In x (github_part obj)
  \/ In x (keywords_of (title obj)) \/ In x (keywords_of (description obj))
  \/ In x (keywords_of (bio obj)) ->
  In x (collected_skills obj).
Proof.
  intros H. unfold collected_skills. cbv zeta.
  match goal with |- In x (company_fallback obj (username_fallback obj ?b)) =>
    set (base := b) end.
  assert (Hb : In x base).
  { unfold base. rewrite !in_app_iff.
    assert (E : match skills obj with Some l => entry_names l | None => [] end
                = entry_names (opt_list (skills obj))) by now destruct (skills obj).
    rewrite E. tauto. }
  destruct (username_fallback_extends obj base) as [e1 ->].
  destruct (company_fallback_extends obj (base ++ e1)) as [e2 ->].
  rewrite !in_app_iff. tauto.
Qed.

(** X9: every name of the [skills] array that is not blank is in the
    extracted set, trimmed. *)
Theorem extractSkills_keeps_explicit (obj : Obj) (s : jsstring) :
  In s (entry_names (opt_list (skills obj))) ->
  trim s <> [] ->
  In (trim s) (extractSkills (Some obj)).
Proof.
  intros Hs Ht. simpl. apply clean_in_iff. split; [exact Ht|].
  exists s. split; [|reflexivity]. apply collected_parts. now left.
Qed.

Lemma extractSkills_keeps_explicit_witness :
  In (trim (str " Node.js ")) (extractSkills (Some (with_skills [" Node.js "; "React"]%string))).
Proof.
  apply (extractSkills_keeps_explicit (with_skills [" Node.js "; "React"]%string)
           (str " Node.js ")).
  - vm_compute. now left.
  - vm_compute. discriminate.
Defined.

Lemma default_names_clean (names : list jsstring) (l : list jsstring) :
  forallb (fun s => truthy_str s && str_eqb (trim s) s) names = true ->
  incl names l -> incl names (clean l).
Proof.
  intros Hn Hl x Hx. rewrite forallb_forall in Hn. specialize (Hn x Hx).
  apply andb_true_iff in Hn. destruct Hn as [H1 H2]. apply str_eqb_eq in H2.
  apply clean_in_iff. split; [intros ->; discriminate|].
  exists x. split; [now apply Hl | exact H2].
Qed.

(** X10: a profile whose username contains [linkedin.com] always has the
    skills LinkedIn, Networking, Professional and Communication. *)
Theorem extractSkills_linkedin_defaults (obj : Obj) :
  username_includes obj "linkedin.com" = true ->
  incl (map str ["LinkedIn"; "Networking"; "Professional"; "Communication"]%string)
       (extractSkills (Some obj)).
Proof.
  intros H. simpl extractSkills. apply default_names_clean; [reflexivity|].
  intros x Hx. apply collected_parts. right. right. left.
  unfold linkedin_part, is_linkedin. rewrite H, orb_true_r.
  rewrite !in_app_iff. right. now left.
Qed.

Lemma extractSkills_linkedin_defaults_witness :
  incl (map str ["LinkedIn"; "Networking"; "Professional"; "Communication"]%string)
       (extractSkills
          (Some (mkObj None None None (Some (str "https://linkedin.com/in/jane-doe"))
                       None None None None))).
Proof.
  apply (extractSkills_linkedin_defaults
           (mkObj None None None (Some (str "https://linkedin.com/in/jane-doe"))
                  None None None None)).
  vm_compute. reflexivity.
Defined.

(** X11: a profile whose username is a plain name, with neither
    [linkedin.com] nor [http] in it, always has the skills GitHub, Git,
    Version Control, Programming, Software Development and Coding. *)
Theorem extractSkills_github_defaults (obj : Obj) :
  username_excludes obj "linkedin.com" = true ->
  username_excludes obj "http" = true ->
  incl (map str ["GitHub"; "Git"; "Version Control"; "Programming";
                 "Software Development"; "Coding"]%string)
       (extractSkills (Some obj)).
Proof.
  intros H1 H2. simpl extractSkills. apply default_names_clean; [reflexivity|].
  intros x Hx. apply collected_parts. right. right. right. left.
  unfold github_part, is_github. rewrite H1, H2, orb_true_r.
  rewrite !in_app_iff. left.
  change (In x (map str ["GitHub"; "Git"; "Version Control"]%string
                ++ map str ["Programming"; "Software Development"; "Coding"]%string))
    in Hx.
  now apply in_app_or in Hx.
Qed.

Lemma extractSkills_github_defaults_witness :
  incl (map str ["GitHub"; "Git"; "Version Control"; "Programming";
                 "Software Development"; "Coding"]%string)
       (extractSkills
          (Some (mkObj None None None (Some (str "octocat")) None None None None))).
Proof.
  apply (extractSkills_github_defaults
           (mkObj None None None (Some (str "octocat")) None None None None));
    vm_compute; reflexivity.
Defined.

Lemma techKeywords_trimmed :
  forallb (fun s => truthy_str s && str_eqb (trim s) s) techKeywords = true.
Proof. vm_compute. reflexivity. Qed.

Lemma filter_all {A : Type} (f : A -> bool) (l : list A) :
  Forall (fun x => f x = true) l -> filter f l = l.
Proof.
  induction 1 as [|a l Ha _ IH]; simpl; [reflexivity|]. now rewrite Ha, IH.
Qed.

Lemma map_fixed {A : Type} (f : A -> A) (l : list A) :
  Forall (fun x => f x = x) l -> map f l = l.
Proof. induction 1 as [|a l Ha _ IH]; simpl; [reflexivity|]. now rewrite Ha, IH. Qed.

(** On names that are already trimmed and not empty, cleaning only
    removes repetitions. *)
Lemma clean_of_trimmed (l : list jsstring) :
  Forall (fun s => s <> [] /\ trim s = s) l -> clean l = dedupe l.
Proof.
  intros H. unfold clean. rewrite map_fixed.
  - rewrite filter_all; [reflexivity|].
    eapply Forall_impl; [|exact H]. intros a [Ha _]. now destruct a.
  - eapply Forall_impl; [|exact H]. now intros a [_ Ha].
Qed.

Lemma dedupe_go_fixed (l seen : list jsstring) :
  NoDup l -> (forall x, In x l -> ~ In x seen) -> dedupe_go seen l = l.
Proof.
  revert seen. induction l as [|a l IH]; intros seen Hnd Hs; simpl; [reflexivity|].
  inversion Hnd as [|? ? Ha Hl]; subst.
  destruct (existsb (str_eqb a) seen) eqn:E.
  - apply existsb_str_eqb in E. exfalso. apply (Hs a); [now left | exact E].
  - f_equal. apply IH; [exact Hl|].
    intros x Hx [<-|Hin]; [contradiction|]. apply (Hs x); [now right | exact Hin].
Qed.

Lemma dedupe_fixed (l : list jsstring) : NoDup l -> dedupe l = l.
Proof. intros H. apply dedupe_go_fixed; [exact H | intros x _ []]. Qed.

Lemma keywords_of_trimmed (t : option jsstring) :
  Forall (fun s => s <> [] /\ trim s = s) (keywords_of t).
Proof.
  apply Forall_forall. intros x Hx.
  assert (Hv : In x techKeywords).
  { destruct t as [u|]; simpl in Hx; [|easy].
    destruct (truthy_str u); [|easy]. now apply keyword_in_iff in Hx. }
  pose proof techKeywords_trimmed as H. rewrite forallb_forall in H.
  specialize (H x Hv). apply andb_true_iff in H. destruct H as [H1 H2].
  apply str_eqb_eq in H2. split; [intros ->; discriminate | exact H2].
Qed.

(** X12: a job without skills, whose title and description yield no
    keyword, but which names a company, gets the keywords found in the
    company name followed by Professional, Communication and Teamwork. *)
Theorem job_with_company_only
  (sk : option (list SkillEntry)) (t d c : option jsstring) :
  opt_list sk = [] ->
  keywords_of t = [] ->
  keywords_of d = [] ->
  truthy c = true ->
  extractSkills (Some (job_record sk t d c))
  = dedupe (keywords_of c
            ++ map str ["Professional"; "Communication"; "Teamwork"]%string)
  /\ incl (map str ["Professional"; "Communication"; "Teamwork"]%string)
          (extractSkills (Some (job_record sk t d c))).
Proof.
  intros Hsk Ht Hd Hc.
  assert (E : collected_skills (job_record sk t d c)
              = keywords_of c
                ++ map str ["Professional"; "Communication"; "Teamwork"]%string).
  { unfold collected_skills, job_record. cbn [Shape.skills title description bio].
    assert (Hs : match sk with Some l => entry_names l | None => [] end = []).
    { destruct sk as [l|]; [|reflexivity]. simpl in Hsk. now subst l. }
    rewrite Hs, Ht, Hd.
    unfold data_part, linkedin_part, github_part, is_linkedin, is_github,
      platform_is, username_includes, username_excludes,
      username_fallback, company_fallback.
    cbn [data platform username company app orb List.length Nat.eqb andb truthy].
    cbn [keywords_of app List.length Nat.eqb andb]. rewrite Hc. reflexivity. }
  assert (E2 : extractSkills (Some (job_record sk t d c))
               = dedupe (keywords_of c
                         ++ map str ["Professional"; "Communication"; "Teamwork"]%string)).
  { simpl extractSkills. rewrite E. apply clean_of_trimmed.
    apply Forall_app. split; [apply keywords_of_trimmed|].
    repeat constructor; try discriminate. }
  split; [exact E2|].
  rewrite E2. intros x Hx. apply dedupe_in. apply in_or_app. now right.
Qed.

Lemma job_with_company_only_witness :
  extractSkills (Some (job_record None None None (Some (str "Spring Labs"))))
  = dedupe (keywords_of (Some (str "Spring Labs"))
            ++ map str ["Professional"; "Communication"; "Teamwork"]%string)
  /\ incl (map str ["Professional"; "Communication"; "Teamwork"]%string)
          (extractSkills (Some (job_record None None None (Some (str "Spring Labs"))))).
Proof.
  apply (job_with_company_only None None None (Some (str "Spring Labs")));
    vm_compute; reflexivity.
Defined.

Lemma extractSkills_entries_ok (obj : option Obj) :
  Forall (fun s => s <> [] /\ trim s = s) (extractSkills obj).
Proof.
  destruct obj as [o|]; simpl; [|constructor].
  apply Forall_forall. intros x Hx. now apply clean_entries in Hx.
Qed.

Lemma extractSkills_NoDup (obj : option Obj) : NoDup (extractSkills obj).
Proof. destruct obj as [o|]; simpl; [apply clean_NoDup | constructor]. Qed.

(** The skills of an object that has a [skills] array of clean, distinct
    names and nothing else are those names. *)
Lemma extractSkills_of_names (l : list jsstring) :
  NoDup l -> Forall (fun s => s <> [] /\ trim s = s) l ->
  extractSkills (Some (set_skills empty_obj (map SkStr l))) = l.
Proof.
  intros Hnd Hok.
  assert (E : collected_skills (set_skills empty_obj (map SkStr l)) = l).
  { unfold collected_skills, set_skills, empty_obj.
    cbn [Shape.skills title description bio].
    unfold data_part, linkedin_part, github_part, is_linkedin, is_github,
      platform_is, username_includes, username_excludes,
      username_fallback, company_fallback.
    cbn [data platform username company keywords_of app orb andb truthy].
    rewrite !andb_false_r, !app_nil_r. cbn [app].
    unfold entry_names. rewrite map_map. cbn [entry_name]. rewrite map_id.
    apply filter_all. eapply Forall_impl; [|exact Hok].
    intros a [Ha _]. now destruct a. }
  simpl extractSkills. rewrite E, clean_of_trimmed by exact Hok.
  now apply dedupe_fixed.
Qed.

Lemma flat_map_extract_ok (profiles : list Obj) :
  Forall (fun s => s <> [] /\ trim s = s)
         (flat_map (fun p => extractSkills (Some p)) profiles).
Proof.
  induction profiles as [|p l IH]; cbn [flat_map]; [constructor|].
  apply Forall_app. split; [apply (extractSkills_entries_ok (Some p)) | exact IH].
Qed.

Lemma combined_profile_skills_aux (profiles : list Obj) :
  extractSkills
    (Some (set_skills empty_obj
             (map SkStr (dedupe (flat_map (fun p => extractSkills (Some p))
                                          profiles)))))
  = dedupe (flat_map (fun p => extractSkills (Some p)) profiles).
Proof.
  apply extractSkills_of_names; [apply dedupe_NoDup|].
  apply Forall_forall. intros x Hx. rewrite dedupe_in in Hx.
  pose proof (flat_map_extract_ok profiles) as H.
  rewrite Forall_forall in H. exact (H x Hx).
Qed.

(** X13: in combined mode the profile skill set that is matched is the
    concatenation of the skill sets of the selected profiles, with every
    skill kept at its first occurrence only. *)
Theorem combined_profile_skills (profiles : list Obj) :
  extractSkills
    (Some (set_skills empty_obj
             (map SkStr (dedupe (flat_map (fun p => extractSkills (Some p))
                                          profiles)))))
  = dedupe (flat_map (fun p => extractSkills (Some p)) profiles).
Proof. apply combined_profile_skills_aux. Qed.

Lemma performLocalMatch_by_skills (p1 p2 job : option Obj) :
  extractSkills p1 = extractSkills p2 ->
  performLocalMatch p1 job = performLocalMatch p2 job.
Proof. intros H. unfold performLocalMatch. now rewrite H. Qed.

(** X14: combined matching of a single profile gives the result of
    [calculateMatch] for that profile, with the profile's platform added,
    and leaves the same job behind. *)
Theorem combined_single_profile (profile job : Obj) :
  fst (calculateCombinedMatch (mkStore [profile] job))
  = with_platforms (fst (calculateMatch (mkStore profile job)))
                   (if_truthy (platform profile))
  /\ st_job (snd (calculateCombinedMatch (mkStore [profile] job)))
     = st_job (snd (calculateMatch (mkStore profile job))).
Proof.
  pose proof (fill_job_skills_store (mkStore [profile] job)) as H1.
  pose proof (fill_job_skills_store (mkStore profile job)) as H2.
  unfold calculateCombinedMatch, calculateMatch, bind, read_profile, read_job, ret.
  destruct (fill_job_skills (mkStore [profile] job)) as [u1 s1].
  destruct (fill_job_skills (mkStore profile job)) as [u2 s2].
  simpl in H1, H2. subst s1 s2. cbn [fst snd st_profile st_job].
  split; [|reflexivity].
  rewrite (performLocalMatch_by_skills _ (Some profile)).
  - cbn [flat_map]. now rewrite app_nil_r.
  - rewrite combined_profile_skills_aux. cbn [flat_map]. rewrite app_nil_r.
    apply dedupe_fixed, extractSkills_NoDup.
Qed.

(* ===================================================================== *)
(** ** More on performLocalMatch *)
(* ===================================================================== *)

Lemma match_step_in (eff acc : list jsstring) (p x : jsstring) :
  In x (match_step eff acc p)
  <-> In x acc \/ (x = p /\ truthy (find (fun j => similar p j) eff) = true).
Proof.
  unfold match_step.
  destruct (truthy (find (fun j => similar p j) eff)) eqn:Et; simpl.
  - destruct (existsb (str_eqb p) acc) eqn:Ee; simpl.
    + apply existsb_str_eqb in Ee. split; [tauto | intros [H|[-> _]]; assumption].
    + rewrite in_app_iff. simpl. split.
      * intros [H|[<-|[]]]; [now left | now right].
      * intros [H|[-> _]]; [now left | right; now left].
  - split; [tauto | intros [H|[_ H]]; [exact H | discriminate]].
Qed.

Lemma match_fold_in (eff l acc : list jsstring) (x : jsstring) :
  In x (fold_left (match_step eff) l acc)
  <-> In x acc
      \/ (In x l /\ truthy (find (fun j => similar x j) eff) = true).
Proof.
  revert acc. induction l as [|p l IH]; intros acc; simpl; [tauto|].
  rewrite IH, match_step_in. split.
  - intros [[H|[-> H]]|[H1 H2]]; [now left | right; split; [now left | exact H]
                                 | right; split; [now right | exact H2]].
  - intros [H|[[<-|H1] H2]]; [left; now left | left; right; now split
                              | right; now split].
Qed.

Lemma match_fold_NoDup (eff l acc : list jsstring) :
  NoDup acc -> NoDup (fold_left (match_step eff) l acc).
Proof.
  revert acc. induction l as [|p l IH]; intros acc H; simpl; [exact H|].
  apply IH. unfold match_step.
  destruct (truthy (find (fun j => similar p j) eff)
            && negb (existsb (str_eqb p) acc)) eqn:E; [|exact H].
  apply andb_true_iff in E. destruct E as [_ E]. apply negb_true_iff in E.
  apply NoDup_app; [exact H | repeat constructor; easy |].
  intros a Ha [<-|[]]. apply existsb_str_eqb in Ha. congruence.
Qed.

Lemma truthy_find (f : jsstring -> bool) (l : list jsstring) :
  Forall (fun j => j <> []) l ->
  (truthy (find f l) = true <-> exists j, In j l /\ f j = true).
Proof.
  intros Hl. split.
  - destruct (find f l) as [j|] eqn:E; [|discriminate].
    intros _. apply find_some in E. now exists j.
  - intros [j [Hj Hf]].
    destruct (find f l) as [k|] eqn:E.
    + apply find_some in E. destruct E as [Hk _].
      rewrite Forall_forall in Hl. specialize (Hl k Hk). now destruct k.
    + exfalso. pose proof (find_none f l E j Hj). congruence.
Qed.

Lemma effective_entries_nonempty (job : option Obj) :
  Forall (fun j => j <> []) (effectiveJobSkills (extractSkills job)).
Proof.
  unfold effectiveJobSkills.
  destruct (0 <? List.length (extractSkills job))%nat.
  - eapply Forall_impl; [|apply extractSkills_entries_ok]. now intros a [Ha _].
  - repeat constructor; discriminate.
Qed.

Lemma service_matched_iff (profile job : option Obj) (p : jsstring) :
  In p (skills_matched (performLocalMatch profile job))
  <-> In p (extractSkills profile)
      /\ exists j, In j (effectiveJobSkills (extractSkills job))
                   /\ similar p j = true.
Proof.
  unfold performLocalMatch.
  destruct (List.length (extractSkills profile) =? 0)%nat eqn:E.
  - apply Nat.eqb_eq, length_zero_iff_nil in E. rewrite E. simpl. tauto.
  - cbn [skills_matched]. unfold matchedSkills_of.
    rewrite match_fold_in, (truthy_find _ _ (effective_entries_nonempty job)).
    simpl. tauto.
Qed.

Lemma service_missing_iff (profile job : option Obj) (j : jsstring) :
  In j (skills_missing (performLocalMatch profile job))
  <-> In j (effectiveJobSkills (extractSkills job))
      /\ Forall (fun p => similar p j = false) (extractSkills profile).
Proof.
  unfold performLocalMatch.
  destruct (List.length (extractSkills profile) =? 0)%nat eqn:E.
  - apply Nat.eqb_eq, length_zero_iff_nil in E. rewrite E. simpl.
    split; [intros H; split; [exact H | constructor] | tauto].
  - cbn [skills_missing]. apply missingSkills_of_spec.
Qed.

(** X15: the service always returns a score between 0 and 1, never NaN,
    and its [skill_match] is the same number. *)
Theorem performLocalMatch_score_range (profile job : option Obj) :
  exists q, overall_score (performLocalMatch profile job) = JFin q
            /\ skill_match (performLocalMatch profile job) = JFin q
            /\ 0 <= q /\ q <= 1.
Proof.
  destruct (performLocalMatch_score_in_unit_interval profile job) as [q [E H]].
  exists q. split; [exact E|]. split; [|exact H].
  rewrite <- E. unfold performLocalMatch.
  destruct (List.length (extractSkills profile) =? 0)%nat; reflexivity.
Qed.

(** X16: the matched list of the service holds, once each, exactly the
    profile skills that pass the similarity threshold against some
    effective job skill. *)
Theorem skills_matched_spec (profile job : option Obj) :
  NoDup (skills_matched (performLocalMatch profile job))
  /\ forall p,
       In p (skills_matched (performLocalMatch profile job))
       <-> In p (extractSkills profile)
           /\ exists j, In j (effectiveJobSkills (extractSkills job))
                        /\ similar p j = true.
Proof.
  split; [|apply service_matched_iff].
  unfold performLocalMatch.
  destruct (List.length (extractSkills profile) =? 0)%nat; cbn [skills_matched];
    [constructor|].
  apply match_fold_NoDup. constructor.
Qed.

(** X17: the missing list of the service holds exactly the effective job
    skills that no profile skill is similar to; every other effective job
    skill is similar to a profile skill of the matched list. *)
Theorem skills_missing_spec (profile job : option Obj) :
  (forall j,
      In j (skills_missing (performLocalMatch profile job))
      <-> In j (effectiveJobSkills (extractSkills job))
          /\ Forall (fun p => similar p j = false) (extractSkills profile))
  /\ forall j,
       In j (effectiveJobSkills (extractSkills job)) ->
       In j (skills_missing (performLocalMatch profile job))
       \/ exists p, In p (skills_matched (performLocalMatch profile job))
                    /\ similar p j = true.
Proof.
  split; [apply service_missing_iff|].
  intros j Hj.
  destruct (existsb (fun p => similar p j) (extractSkills profile)) eqn:E.
  - right. apply existsb_exists in E. destruct E as [p [Hp Hs]].
    exists p. split; [|exact Hs]. apply service_matched_iff.
    split; [exact Hp | now exists j].
  - left. apply service_missing_iff. split; [exact Hj|].
    apply Forall_forall. intros p Hp.
    destruct (similar p j) eqn:Es; [|reflexivity].
    assert (existsb (fun p => similar p j) (extractSkills profile) = true);
      [|congruence].
    apply existsb_exists. now exists p.
Qed.

(** X18: the score that the matching page stores for a result of the
    service is a number above 0 and at most 1: a score of 0 is replaced
    by 0.5. *)
Theorem stored_score_positive (profile job : option Obj) :
  exists q, stored_score (performLocalMatch profile job) = JFin q
            /\ 0 < q /\ q <= 1.
Proof.
  destruct (performLocalMatch_score_in_unit_interval profile job) as [q [E [H0 H1]]].
  unfold stored_score. rewrite E. simpl.
  destruct (Qeq_bool q 0) eqn:Eq.
  - exists (1 # 2). repeat split; discriminate.
  - exists q. repeat split; [|exact H1].
    apply Qle_lt_or_eq in H0. destruct H0 as [H0|H0]; [exact H0|].
    symmetry in H0. apply Qeq_bool_iff in H0. congruence.
Qed.

(** X19: when the profile has skills and none of them matches, the
    service returns the score 0 and the page stores 0.5 for it. *)
Theorem stored_score_of_no_match (profile job : option Obj) :
  extractSkills profile <> [] ->
  skills_matched (performLocalMatch profile job) = [] ->
  (exists q, overall_score (performLocalMatch profile job) = JFin q /\ q == 0)
  /\ stored_score (performLocalMatch profile job) = JFin (1 # 2).
Proof.
  intros Hne Hm. unfold stored_score. revert Hm. unfold performLocalMatch.
  destruct (List.length (extractSkills profile) =? 0)%nat eqn:E.
  { apply Nat.eqb_eq, length_zero_iff_nil in E. contradiction. }
  cbn [skills_matched overall_score]. intros ->.
  pose proof (effectiveJobSkills_nonempty (extractSkills job)) as Hn.
  destruct (effectiveJobSkills (extractSkills job)) as [|a l]; [contradiction|].
  cbn [List.length Nat.ltb Nat.leb].
  unfold jsdiv, Qnat. cbn [Z.of_nat].
  split; [eexists; split; [reflexivity|reflexivity] | reflexivity].
Qed.

Lemma stored_score_of_no_match_witness :
  (exists q, overall_score (performLocalMatch (Some (with_skills ["Cobol"]%string))
                              (Some job_react_python)) = JFin q /\ q == 0)
  /\ stored_score (performLocalMatch (Some (with_skills ["Cobol"]%string))
                     (Some job_react_python)) = JFin (1 # 2).
Proof.
  apply (stored_score_of_no_match (Some (with_skills ["Cobol"]%string))
           (Some job_react_python)).
  - vm_compute. discriminate.
  - vm_compute. reflexivity.
Defined.

(* ===================================================================== *)
(** ** More on calculateLocalMatch *)
(* ===================================================================== *)

Lemma match_score_unit (j : JobSkill) (imp : Q) (p : ProfileSkill) :
  proficiency_ok p ->
  0 <= match_score (match_of j imp p) /\ match_score (match_of j imp p) <= 1.
Proof.
  intros [H0 H1]. unfold match_of. cbn [match_score].
  destruct (str_eqb (toLowerCase (p_name p)) (toLowerCase (j_name j))).
  - rewrite Qmult_1_l. now split.
  - split.
    + apply Qmult_le_0_compat; [discriminate | exact H0].
    + apply Qle_trans with ((7 # 10) * 1).
      * apply Qmult_le_compat_nonneg; split;
          [discriminate | apply Qle_refl | exact H0 | exact H1].
      * discriminate.
Qed.

Lemma loop_bounds (ps : list ProfileSkill) (js : list JobSkill) (acc : Acc) :
  Forall proficiency_ok ps ->
  Forall (fun j => 0 < importance_of j) js ->
  0 <= matchedImportance acc ->
  matchedImportance acc <= totalImportance acc ->
  0 <= matchedImportance (fold_left (job_step ps) js acc)
  /\ matchedImportance (fold_left (job_step ps) js acc)
     <= totalImportance (fold_left (job_step ps) js acc)
  /\ (js <> [] -> 0 < totalImportance (fold_left (job_step ps) js acc)).
Proof.
  intros Hps. revert acc.
  induction js as [|j js IH]; intros acc Hjs H0 H1; simpl.
  - repeat split; [exact H0 | exact H1 | intros H; now destruct H].
  - inversion Hjs as [|? ? Hj Hrest]; subst.
    assert (Hstep : 0 <= matchedImportance (job_step ps acc j)
                    /\ matchedImportance (job_step ps acc j)
                       <= totalImportance (job_step ps acc j)
                    /\ 0 < totalImportance (job_step ps acc j)).
    { assert (Htot : 0 < totalImportance acc + importance_of j).
      { apply Qlt_le_trans with (0 + importance_of j).
        - now rewrite Qplus_0_l.
        - apply Qplus_le_compat; [|apply Qle_refl].
          now apply Qle_trans with (matchedImportance acc). }
      unfold job_step. destruct (matchingSkill ps j) as [p|] eqn:E;
        cbn [matchedImportance totalImportance].
      - assert (Hp : proficiency_ok p).
        { unfold matchingSkill in E. apply find_some in E. destruct E as [Hin _].
          rewrite Forall_forall in Hps. now apply Hps. }
        destruct (match_score_unit j (importance_of j) p Hp) as [S0 S1].
        repeat split; [| |exact Htot].
        + apply Qle_trans with (0 + 0); [discriminate|].
          apply Qplus_le_compat; [exact H0|].
          apply Qmult_le_0_compat; [now apply Qlt_le_weak | exact S0].
        + apply Qplus_le_compat; [exact H1|].
          apply Qle_trans with (importance_of j * 1).
          * apply Qmult_le_compat_nonneg; split;
              [now apply Qlt_le_weak | apply Qle_refl | exact S0 | exact S1].
          * rewrite Qmult_1_r. apply Qle_refl.
      - repeat split; [exact H0 | | exact Htot].
        apply Qle_trans with (matchedImportance acc + 0).
        * rewrite Qplus_0_r. apply Qle_refl.
        * apply Qplus_le_compat; [exact H1 | now apply Qlt_le_weak]. }
    destruct Hstep as [A [B C]].
    destruct (IH (job_step ps acc j) Hrest A B) as [I1 [I2 I3]].
    repeat split; [exact I1 | exact I2 |].
    intros _. destruct js as [|j' js']; [exact C | apply I3; discriminate].
Qed.

Lemma percentage_range (m t : Q) :
  0 <= m -> m <= t -> 0 < t ->
  exists z : Z, Math_round (jsscale (jsdiv m t) 100) = JFin (inject_Z z)
                /\ (0 <= z <= 100)%Z.
Proof.
  intros H0 H1 Ht. unfold jsdiv.
  destruct (Qeq_bool t 0) eqn:E.
  { apply Qeq_bool_iff in E. rewrite E in Ht. now apply Qlt_irrefl in Ht. }
  cbn [jsscale Math_round]. eexists. split; [reflexivity|].
  assert (Q0 : 0 <= m / t).
  { apply Qle_shift_div_l; [exact Ht | now rewrite Qmult_0_l]. }
  assert (Q1 : m / t <= 1).
  { apply Qle_shift_div_r; [exact Ht | now rewrite Qmult_1_l]. }
  split.
  - change 0%Z with (Qfloor 0). apply Qfloor_resp_le.
    apply Qle_trans with (0 + 0); [discriminate|].
    apply Qplus_le_compat; [|discriminate].
    apply Qmult_le_0_compat; [exact Q0 | discriminate].
  - change 100%Z with (Qfloor (1 * 100 + (1 # 2))). apply Qfloor_resp_le.
    apply Qplus_le_compat; [|apply Qle_refl].
    apply Qmult_le_compat_r; [exact Q1 | discriminate].
Qed.

Lemma percentage_of_well_formed (profile job : option Obj) :
  extractJobSkills job <> [] ->
  Forall (fun j => 0 < importance_of j) (extractJobSkills job) ->
  Forall proficiency_ok (extractProfileSkills profile) ->
  exists z : Z,
    overall_match (calculateLocalMatch profile job) = JFin (inject_Z z)
    /\ (0 <= z <= 100)%Z.
Proof.
  intros Hne Himp Hprof. unfold calculateLocalMatch. cbn [overall_match].
  unfold run_loop.
  destruct (loop_bounds (extractProfileSkills profile) (extractJobSkills job)
              (mkAcc 0 0 [] []) Hprof Himp (Qle_refl 0) (Qle_refl 0))
    as [A [B C]].
  apply percentage_range; [exact A | exact B | now apply C].
Qed.

(** X21: when the job has a skill, every importance is positive and at
    most 1, and every proficiency lies between 0 and 1, the score of the
    page's matcher is a whole number between 0 and 100. *)
Theorem overall_match_is_percentage (profile job : option Obj) :
  extractJobSkills job <> [] ->
  Forall (fun j => 0 < importance_of j /\ importance_of j <= 1)
         (extractJobSkills job) ->
  Forall proficiency_ok (extractProfileSkills profile) ->
  exists z : Z,
    overall_match (calculateLocalMatch profile job) = JFin (inject_Z z)
    /\ (0 <= z <= 100)%Z.
Proof.
  intros Hne Himp Hprof. apply percentage_of_well_formed; try assumption.
  eapply Forall_impl; [|exact Himp]. now intros j [H _].
Qed.

Lemma overall_match_is_percentage_witness :
  exists z : Z,
    overall_match (calculateLocalMatch (Some profile_A) (Some job_A))
    = JFin (inject_Z z)
    /\ (0 <= z <= 100)%Z.
Proof.
  apply (overall_match_is_percentage (Some profile_A) (Some job_A)).
  - vm_compute. discriminate.
  - repeat constructor; discriminate.
  - repeat constructor; discriminate.
Defined.

(** X22: a profile without any skill leaves every job skill missing, in
    the order of the job, with no match and no strength. *)
Theorem no_profile_skills_all_missing (profile job : option Obj) :
  extractProfileSkills profile = [] ->
  skill_matches (calculateLocalMatch profile job) = []
  /\ missing_skills (calculateLocalMatch profile job)
     = map j_name (extractJobSkills job)
  /\ strengths (calculateLocalMatch profile job) = [].
Proof.
  intros H. unfold calculateLocalMatch.
  cbn [skill_matches missing_skills strengths]. rewrite H. unfold run_loop.
  destruct (loop_names [] (extractJobSkills job) (mkAcc 0 0 [] [])) as [E1 E2].
  rewrite (filter_none (has_match [])) in E1 by reflexivity.
  rewrite (filter_all (fun j => negb (has_match [] j))) in E2
    by (apply Forall_forall; reflexivity).
  simpl in E1, E2. apply map_eq_nil in E1. rewrite E1, E2.
  repeat split; reflexivity.
Qed.

Lemma no_profile_skills_all_missing_witness :
  skill_matches (calculateLocalMatch (Some profile_no_skills) (Some job_A)) = []
  /\ missing_skills (calculateLocalMatch (Some profile_no_skills) (Some job_A))
     = map j_name (extractJobSkills (Some job_A))
  /\ strengths (calculateLocalMatch (Some profile_no_skills) (Some job_A)) = [].
Proof.
  exact (no_profile_skills_all_missing (Some profile_no_skills) (Some job_A) eq_refl).
Defined.

Lemma loop_matches_forall (P : SkillMatch -> Prop) (ps : list ProfileSkill)
  (js : list JobSkill) (acc : Acc) :
  (forall j p, In p ps -> P (match_of j (importance_of j) p)) ->
  Forall P (skillMatches acc) ->
  Forall P (skillMatches (fold_left (job_step ps) js acc)).
Proof.
  intros HP. revert acc. induction js as [|j js IH]; intros acc H; simpl; [exact H|].
  apply IH. unfold job_step.
  destruct (matchingSkill ps j) as [p|] eqn:E; cbn [skillMatches]; [|exact H].
  apply Forall_app. split; [exact H|]. constructor; [|constructor].
  apply HP. unfold matchingSkill in E. now apply find_some in E.
Qed.

Lemma filter_ext_Forall {A : Type} (f g : A -> bool) (l : list A) :
  Forall (fun x => f x = g x) l -> filter f l = filter g l.
Proof.
  induction 1 as [|a l Ha _ IH]; simpl; [reflexivity|]. now rewrite Ha, IH.
Qed.

(** X23: for a profile whose skills are bare names, every matched job
    skill of importance 0.7 or more is a strength, partial matches
    included: their score 0.7 just reaches the bar. *)
Theorem strengths_of_bare_names (profile job : option Obj) :
  Forall (fun p => p_proficiency p = None) (extractProfileSkills profile) ->
  strengths (calculateLocalMatch profile job)
  = map skill_name
        (filter (fun m => Qle_bool (7 # 10) (m_importance m))
                (skill_matches (calculateLocalMatch profile job))).
Proof.
  intros H. unfold calculateLocalMatch. cbn [strengths skill_matches].
  f_equal. apply filter_ext_Forall. unfold run_loop.
  apply loop_matches_forall; [|constructor].
  intros j p Hp. rewrite Forall_forall in H. specialize (H p Hp).
  unfold match_of. cbn [m_importance match_score]. rewrite H. cbn [num_or].
  destruct (str_eqb (toLowerCase (p_name p)) (toLowerCase (j_name j)));
    cbn; now rewrite andb_true_r.
Qed.

Lemma strengths_of_bare_names_witness :
  strengths (calculateLocalMatch (Some profile_two_javas) (Some job_Java_important))
  = [str "Java"]
  /\ map match_quality
         (skill_matches (calculateLocalMatch (Some profile_two_javas)
                                             (Some job_Java_important)))
     = [7 # 10].
Proof.
  split.
  - rewrite (strengths_of_bare_names (Some profile_two_javas)
               (Some job_Java_important)).
    + vm_compute. reflexivity.
    + repeat constructor.
  - vm_compute. reflexivity.
Defined.

(** X24: the colour that the result card gives to a score goes with the
    tier that the recommendation names for it: green with Excellent, blue
    with Good, yellow with Moderate, orange with Weak, red with Poor. *)
Theorem badge_colour_matches_tier (profile job : option Obj) :
  In (getMatchColor (overall_match (calculateLocalMatch profile job)),
      firstn 4 (recommendation (calculateLocalMatch profile job)))
     [(str "bg-green-500", str "Exce"); (str "bg-blue-500", str "Good");
      (str "bg-yellow-500", str "Mode"); (str "bg-orange-500", str "Weak");
      (str "bg-red-500", str "Poor")].
Proof.
  rewrite recommendation_is_bare_tier.
  generalize (overall_match (calculateLocalMatch profile job)). intros x.
  unfold getMatchColor, tier.
  destruct (ge_const x 85); [now left|].
  destruct (ge_const x 70); [right; now left|].
  destruct (ge_const x 50); [right; right; now left|].
  destruct (ge_const x 30); [right; right; right; now left|].
  right; right; right; right; now left.
Qed.

(* ===================================================================== *)
(** ** The jobs page *)
(* ===================================================================== *)

Lemma Qmax2_mono (a b b' : Q) : b <= b' -> Qmax2 a b <= Qmax2 a b'.
Proof.
  intros H. unfold Qmax2.
  destruct (Qle_bool a b) eqn:E, (Qle_bool a b') eqn:E'.
  - exact H.
  - apply Qle_bool_iff in E.
    assert (Qle_bool a b' = true); [|congruence].
    apply Qle_bool_iff. now apply Qle_trans with b.
  - now apply Qle_bool_iff in E'.
  - apply Qle_refl.
Qed.

Lemma divisor_pos (totalSkills : nat) :
  0 < inject_Z (Z.of_nat (if (totalSkills =? 0)%nat then 1 else totalSkills)).
Proof.
  change 0 with (inject_Z 0). rewrite <- Zlt_Qlt.
  destruct totalSkills; simpl; lia.
Qed.

Lemma penalty_mono (i k n : nat) :
  (i <= k)%nat ->
  (inject_Z (Z.of_nat i) * (7 # 10))
    / inject_Z (Z.of_nat (if (n =? 0)%nat then 1 else n))
  <= (inject_Z (Z.of_nat k) * (7 # 10))
     / inject_Z (Z.of_nat (if (n =? 0)%nat then 1 else n)).
Proof.
  intros H. unfold Qdiv. apply Qmult_le_compat_r.
  - apply Qmult_le_compat_r; [|discriminate]. rewrite <- Zle_Qle. lia.
  - apply Qinv_le_0_compat, Qlt_le_weak, divisor_pos.
Qed.

Lemma raw_importance_mono (i k n : nat) :
  (i <= k)%nat -> raw_importance k n <= raw_importance i n.
Proof.
  intros H. unfold raw_importance. apply Qmax2_mono.
  unfold Qminus. apply Qplus_le_compat; [apply Qle_refl|].
  apply Qopp_le_compat. now apply penalty_mono.
Qed.

Lemma raw_importance_range (i n : nat) :
  3 # 10 <= raw_importance i n /\ raw_importance i n <= 1.
Proof.
  split.
  - unfold raw_importance, Qmax2.
    match goal with |- context [Qle_bool ?a ?b] => destruct (Qle_bool a b) eqn:E end;
      [now apply Qle_bool_iff in E | apply Qle_refl].
  - apply Qle_trans with (raw_importance 0 n);
      [apply raw_importance_mono; lia|].
    unfold raw_importance, Qmax2.
    match goal with |- context [Qle_bool ?a ?b] => destruct (Qle_bool a b) end;
      [|discriminate].
    unfold Qminus. apply Qle_trans with (1 + - 0); [|discriminate].
    apply Qplus_le_compat; [apply Qle_refl|]. apply Qopp_le_compat.
    apply Qle_shift_div_l; [apply divisor_pos|]. rewrite Qmult_0_l. discriminate.
Qed.

Lemma round1_mono (v v' : Q) : v <= v' -> round1 v <= round1 v'.
Proof.
  intros H. unfold round1, Qdiv. apply Qmult_le_compat_r; [|discriminate].
  rewrite <- Zle_Qle. apply Qfloor_resp_le.
  apply Qplus_le_compat; [|apply Qle_refl].
  apply Qmult_le_compat_r; [exact H | discriminate].
Qed.

Lemma round1_range (v : Q) :
  3 # 10 <= v -> v <= 1 -> 3 # 10 <= round1 v /\ round1 v <= 1.
Proof.
  intros H0 H1. split.
  - apply Qle_trans with (round1 (3 # 10)); [discriminate | now apply round1_mono].
  - apply Qle_trans with (round1 1); [now apply round1_mono | discriminate].
Qed.

Lemma parse_from_ok (i n : nat) (pieces : list jsstring) :
  Forall parsed_ok (parse_from i n pieces).
Proof.
  revert i. induction pieces as [|x l IH]; intros i; simpl; [constructor|].
  apply Forall_app. split; [|apply IH].
  destruct (trim x) as [|c r] eqn:E; simpl; [constructor|].
  constructor; [|constructor]. unfold parsed_ok. cbn [ps_name ps_importance].
  split; [discriminate|]. split; [rewrite <- E; apply trim_idempotent|].
  destruct (raw_importance_range i n). now apply round1_range.
Qed.

Lemma parse_from_required (i n : nat) (pieces : list jsstring) :
  (List.length (filter ps_required (parse_from i n pieces)) <= 3 - i)%nat.
Proof.
  revert i. induction pieces as [|x l IH]; intros i; cbn [parse_from];
    [simpl; lia|].
  rewrite filter_app, length_app. specialize (IH (S i)).
  destruct (negb (truthy_str (trim x))); [cbn [filter List.length]; lia|].
  cbn [filter ps_required].
  destruct (i <? 3)%nat eqn:E; cbn [List.length];
    [apply Nat.ltb_lt in E; lia | lia].
Qed.

Lemma parse_from_length (i n : nat) (pieces : list jsstring) :
  (List.length (parse_from i n pieces) <= List.length pieces)%nat.
Proof.
  revert i. induction pieces as [|x l IH]; intros i; simpl; [lia|].
  rewrite length_app. specialize (IH (S i)).
  destruct (negb (truthy_str (trim x))); simpl; lia.
Qed.

Lemma parse_from_below (i n : nat) (pieces : list jsstring) :
  Forall (fun s => ps_importance s <= round1 (raw_importance i n))
         (parse_from i n pieces).
Proof.
  revert i. induction pieces as [|x l IH]; intros i; simpl; [constructor|].
  apply Forall_app. split.
  - destruct (negb (truthy_str (trim x))); [constructor|].
    constructor; [apply Qle_refl | constructor].
  - eapply Forall_impl; [|apply (IH (S i))]. intros s Hs.
    apply Qle_trans with (round1 (raw_importance (S i) n)); [exact Hs|].
    apply round1_mono, raw_importance_mono. lia.
Qed.

Lemma parse_from_sorted (i n : nat) (pieces : list jsstring) :
  StronglySorted (fun a b => ps_importance b <= ps_importance a)
                 (parse_from i n pieces).
Proof.
  revert i. induction pieces as [|x l IH]; intros i; simpl; [constructor|].
  destruct (negb (truthy_str (trim x))); simpl; [apply IH|].
  constructor; [apply IH|]. cbn [ps_importance].
  eapply Forall_impl; [|apply (parse_from_below (S i) n l)]. intros s Hs.
  apply Qle_trans with (round1 (raw_importance (S i) n)); [exact Hs|].
  apply round1_mono, raw_importance_mono. lia.
Qed.

(** X25: every skill that [parseSkills] returns has a trimmed name that
    is not empty and an importance between 0.3 and 1; at most three are
    required, and there are no more skills than comma-separated pieces. *)
Theorem parseSkills_entries (skillsText : jsstring) :
  Forall (fun s => ps_name s <> [] /\ trim (ps_name s) = ps_name s
                   /\ 3 # 10 <= ps_importance s /\ ps_importance s <= 1)
         (parseSkills skillsText)
  /\ (List.length (filter ps_required (parseSkills skillsText)) <= 3)%nat
  /\ (List.length (parseSkills skillsText)
      <= List.length (split_char ","%char skillsText))%nat.
Proof.
  unfold parseSkills. destruct (negb (truthy_str skillsText)).
  - repeat split; [constructor | simpl; lia | simpl; lia].
  - cbv zeta. split; [apply parse_from_ok|]. split.
    + pose proof (parse_from_required 0
                    (List.length (split_char ","%char skillsText))
                    (split_char ","%char skillsText)). lia.
    + apply parse_from_length.
Qed.

(** X26: the importances that [parseSkills] assigns never increase along
    the list: an earlier skill is at least as important as a later one. *)
Theorem parseSkills_importance_sorted (skillsText : jsstring) :
  StronglySorted (fun a b => ps_importance b <= ps_importance a)
                 (parseSkills skillsText).
Proof.
  unfold parseSkills. destruct (negb (truthy_str skillsText)); [constructor|].
  apply parse_from_sorted.
Qed.

Lemma extractJobSkills_of_parsed (job : Obj) (l : list ParsedSkill) :
  Forall parsed_ok l ->
  extractJobSkills (Some (set_skills job (map as_entry l)))
  = map (fun s => mkJobSkill (ps_name s)
                             (Some (num_or (Some (ps_importance s)) (1 # 2))) None)
        l.
Proof.
  intros H. unfold extractJobSkills, set_skills. cbn [skills opt_list].
  induction H as [|s l Hs _ IH]; simpl; [reflexivity|].
  destruct Hs as [Hn _]. destruct (ps_name s) as [|c r] eqn:E; [now destruct Hn|].
  simpl. f_equal. exact IH.
Qed.

Lemma parsed_importance_positive (s : ParsedSkill) :
  parsed_ok s ->
  0 < importance_of (mkJobSkill (ps_name s)
                       (Some (num_or (Some (ps_importance s)) (1 # 2))) None).
Proof.
  intros [_ [_ [H _]]].
  assert (Hpos : 0 < ps_importance s).
  { apply Qlt_le_trans with (3 # 10); [reflexivity | exact H]. }
  assert (E : Qeq_bool (ps_importance s) 0 = false).
  { destruct (Qeq_bool (ps_importance s) 0) eqn:E; [|reflexivity].
    apply Qeq_bool_iff in E. rewrite E in Hpos. now apply Qlt_irrefl in Hpos. }
  unfold importance_of. cbn [j_importance num_or]. rewrite E. cbn [num_or].
  now rewrite E.
Qed.

(** X27: for a job whose skills come from [parseSkills] with at least one
    skill, and a profile whose proficiencies lie between 0 and 1, the
    page's matcher returns a whole number between 0 and 100, never NaN. *)
Theorem parsed_job_scores_percentage (profile : option Obj) (job : Obj)
  (skillsText : jsstring) :
  parseSkills skillsText <> [] ->
  Forall proficiency_ok (extractProfileSkills profile) ->
  exists z : Z,
    overall_match
      (calculateLocalMatch profile
         (Some (set_skills job (map as_entry (parseSkills skillsText)))))
    = JFin (inject_Z z)
    /\ (0 <= z <= 100)%Z.
Proof.
  intros Hne Hprof.
  assert (Hok : Forall parsed_ok (parseSkills skillsText)).
  { unfold parseSkills. destruct (negb (truthy_str skillsText));
      [constructor | apply parse_from_ok]. }
  apply percentage_of_well_formed; [| |exact Hprof];
    rewrite (extractJobSkills_of_parsed job _ Hok).
  - destruct (parseSkills skillsText); [now destruct Hne | discriminate].
  - apply Forall_map. eapply Forall_impl; [|exact Hok].
    intros s Hs. now apply parsed_importance_positive.
Qed.

Lemma parsed_job_scores_percentage_witness :
  exists z : Z,
    overall_match
      (calculateLocalMatch (Some profile_A)
         (Some (set_skills empty_obj (map as_entry (parseSkills (str "React, Python"))))))
    = JFin (inject_Z z)
    /\ (0 <= z <= 100)%Z.
Proof.
  apply (parsed_job_scores_percentage (Some profile_A) empty_obj (str "React, Python")).
  - vm_compute. discriminate.
  - repeat constructor; discriminate.
Defined.

(** X28: the job level does not depend on the letter case of the title. *)
Theorem calculateJobLevel_ignores_case (title : jsstring) :
  calculateJobLevel (toLowerCase title) = calculateJobLevel title.
Proof. unfold calculateJobLevel. now rewrite toLowerCase_idempotent. Qed.

Lemma includes_lower_within (a t b k : jsstring) :
  includes (toLowerCase t) k = true ->
  includes (toLowerCase (a ++ t ++ b)) k = true.
Proof.
  intros H. unfold toLowerCase. rewrite !map_app. now apply includes_within.
Qed.

(** X29: a senior title stays senior whatever is written before or after
    it: the words senior, lead, architect and manager win over junior,
    intern and assistant. *)
Theorem calculateJobLevel_senior_wins (before title after : jsstring) :
  calculateJobLevel title = str "senior" ->
  calculateJobLevel (before ++ title ++ after) = str "senior".
Proof.
  unfold calculateJobLevel. cbv zeta.
  destruct (includes (toLowerCase title) (str "senior")) eqn:E1.
  { intros _. now rewrite (includes_lower_within _ _ _ _ E1). }
  destruct (includes (toLowerCase title) (str "lead")) eqn:E2.
  { intros _. now rewrite (includes_lower_within _ _ _ _ E2), orb_true_r. }
  destruct (includes (toLowerCase title) (str "architect")) eqn:E3.
  { intros _. now rewrite (includes_lower_within _ _ _ _ E3), !orb_true_r. }
  destruct (includes (toLowerCase title) (str "manager")) eqn:E4.
  { intros _. now rewrite (includes_lower_within _ _ _ _ E4), !orb_true_r. }
  cbn [orb].
  destruct (includes (toLowerCase title) (str "junior")
            || includes (toLowerCase title) (str "intern")
            || includes (toLowerCase title) (str "assistant")); discriminate.
Qed.

Lemma calculateJobLevel_senior_wins_witness :
  calculateJobLevel (str "Junior " ++ str "Architect" ++ str " (intern pool)")
  = str "senior".
Proof.
  apply (calculateJobLevel_senior_wins (str "Junior ") (str "Architect")
           (str " (intern pool)")).
  vm_compute. reflexivity.
Defined.

(* ===================================================================== *)
(** ** The stored matches *)
(* ===================================================================== *)

Lemma upgrade_one_idempotent {A : Type} (m : StoredMatch A) :
  upgrade_one (upgrade_one m) = upgrade_one m.
Proof.
  destruct m as [r [a|] [b|] [c|] [d|]]; reflexivity.
Qed.

Lemma upgrade_one_present {A : Type} (m : StoredMatch A) :
  present (lm_skills_matched (upgrade_one m)) = true
  /\ present (lm_skills_missing (upgrade_one m)) = true
  /\ lm_rest (upgrade_one m) = lm_rest m.
Proof.
  destruct m as [r [a|] [b|] [c|] [d|]]; repeat split; reflexivity.
Qed.

(** X30: after [upgradeLegacyMatches] every match has a [skills_matched]
    and a [skills_missing] list and keeps its other properties; null
    entries are dropped, and upgrading a second time changes nothing. *)
Theorem upgradeLegacyMatches_normalises {A : Type}
  (matchesData : option (list (option (StoredMatch A)))) :
  Forall (fun m => present (lm_skills_matched m) = true
                   /\ present (lm_skills_missing m) = true)
         (upgradeLegacyMatches matchesData)
  /\ map lm_rest (upgradeLegacyMatches matchesData)
     = map lm_rest
         (flat_map (fun m => match m with Some x => [x] | None => [] end)
                   (opt_list matchesData))
  /\ upgradeLegacyMatches (Some (map Some (upgradeLegacyMatches matchesData)))
     = upgradeLegacyMatches matchesData.
Proof.
  destruct matchesData as [l|]; simpl; [|repeat split; constructor].
  induction l as [|[x|] l [IH1 [IH2 IH3]]]; simpl.
  - repeat split; constructor.
  - destruct (upgrade_one_present x) as [P1 [P2 P3]]. repeat split.
    + constructor; [now split | exact IH1].
    + now rewrite P3, IH2.
    + now rewrite upgrade_one_idempotent, IH3.
  - repeat split; assumption.
Qed.

(* ===================================================================== *)
(** ** The pairing rule of calculateLocalMatch, on its result *)
(* ===================================================================== *)

Lemma loop_results (ps : list ProfileSkill) (js : list JobSkill) (acc : Acc) :
  skillMatches (fold_left (job_step ps) js acc)
  = skillMatches acc
    ++ flat_map (fun j =>
                   match find (name_related (toLowerCase (j_name j))) ps with
                   | Some p => [match_of j (importance_of j) p]
                   | None => []
                   end) js
  /\ missingSkills (fold_left (job_step ps) js acc)
     = missingSkills acc
       ++ flat_map (fun j =>
                      match find (name_related (toLowerCase (j_name j))) ps with
                      | Some _ => []
                      | None => [mkMissingSkill (j_name j) (importance_of j)
                                   (bool_or_false (j_required j))]
                      end) js.
Proof.
  revert acc. induction js as [|j js IH]; intros acc; cbn [fold_left flat_map].
  - now rewrite !app_nil_r.
  - destruct (IH (job_step ps acc j)) as [IH1 IH2]. rewrite IH1, IH2.
    unfold job_step, matchingSkill.
    destruct (find (name_related (toLowerCase (j_name j))) ps) as [p|];
      cbn [skillMatches missingSkills app]; rewrite <- ?app_assoc; split; reflexivity.
Qed.

(** C2, as the code has it: [calculateLocalMatch] goes through the job
    skills in order and takes, for each, the first profile skill in list
    order whose lower-cased name equals, contains or is contained in the
    lower-cased job skill name.  A job skill with such a profile skill is
    recorded in [skill_matches], with importance 0.5 when it has none,
    quality 1 when the two lower-cased names are equal and 0.7 otherwise,
    and match score quality times proficiency, 1 when the profile skill
    has none; a job skill without one is recorded in
    [missing_skills_details]. *)
Theorem calculateLocalMatch_takes_first_related (profile job : option Obj) :
  skill_matches (calculateLocalMatch profile job)
  = flat_map
      (fun j =>
         match find (name_related (toLowerCase (j_name j)))
                    (extractProfileSkills profile) with
         | Some p =>
             [mkSkillMatch
                (j_name j)
                (num_or (j_importance j) (1 # 2))
                (num_or (p_proficiency p) 1)
                (if str_eqb (toLowerCase (p_name p)) (toLowerCase (j_name j))
                 then 1 else 7 # 10)
                ((if str_eqb (toLowerCase (p_name p)) (toLowerCase (j_name j))
                  then 1 else 7 # 10)
                 * num_or (p_proficiency p) 1)
                (num_or (j_importance j) (1 # 2)
                 * ((if str_eqb (toLowerCase (p_name p)) (toLowerCase (j_name j))
                     then 1 else 7 # 10)
                    * num_or (p_proficiency p) 1))
                (bool_or_false (j_required j))]
         | None => []
         end)
      (extractJobSkills job)
  /\ missing_skills_details (calculateLocalMatch profile job)
     = flat_map
         (fun j =>
            match find (name_related (toLowerCase (j_name j)))
                       (extractProfileSkills profile) with
            | Some _ => []
            | None => [mkMissingSkill (j_name j) (num_or (j_importance j) (1 # 2))
                         (bool_or_false (j_required j))]
            end)
         (extractJobSkills job)
  /\ forall j,
       match find (name_related (toLowerCase (j_name j)))
                  (extractProfileSkills profile) with
       | Some p =>
           exists before after,
             extractProfileSkills profile = before ++ p :: after
             /\ Forall (fun q => name_related (toLowerCase (j_name j)) q = false)
                       before
             /\ name_related (toLowerCase (j_name j)) p = true
       | None =>
           Forall (fun q => name_related (toLowerCase (j_name j)) q = false)
                  (extractProfileSkills profile)
       end.
Proof.
  unfold calculateLocalMatch. cbn [skill_matches missing_skills_details].
  unfold run_loop.
  destruct (loop_results (extractProfileSkills profile) (extractJobSkills job)
              (mkAcc 0 0 [] [])) as [E1 E2].
  split; [exact E1|]. split; [exact E2|].
  intros j. apply find_first.
Qed.

(* ===================================================================== *)
(** ** The job fallbacks, through performLocalMatch *)
(* ===================================================================== *)

Lemma performLocalMatch_by_job_skills (profile j1 j2 : option Obj) :
  effectiveJobSkills (extractSkills j1) = effectiveJobSkills (extractSkills j2) ->
  performLocalMatch profile j1 = performLocalMatch profile j2.
Proof. intros H. unfold performLocalMatch. now rewrite H. Qed.

Lemma empty_job_collects_company (sk : option (list SkillEntry))
  (t d c : option jsstring) :
  opt_list sk = [] -> keywords_of t = [] -> keywords_of d = [] ->
  extractSkills (Some (job_record sk t d c))
  = if truthy c
    then dedupe (keywords_of c
                 ++ map str ["Professional"; "Communication"; "Teamwork"]%string)
    else [].
Proof.
  intros Hsk Ht Hd.
  assert (E : collected_skills (job_record sk t d c)
              = if truthy c
                then keywords_of c
                     ++ map str ["Professional"; "Communication"; "Teamwork"]%string
                else []).
  { unfold collected_skills, job_record. cbn [Shape.skills title description bio].
    assert (Hs : match sk with Some l => entry_names l | None => [] end = []).
    { destruct sk as [l|]; [|reflexivity]. simpl in Hsk. now subst l. }
    rewrite Hs, Ht, Hd.
    unfold data_part, linkedin_part, github_part, is_linkedin, is_github,
      platform_is, username_includes, username_excludes,
      username_fallback, company_fallback.
    cbn [data platform username company app orb List.length Nat.eqb andb truthy].
    cbn [keywords_of app List.length Nat.eqb andb].
    destruct (truthy c); reflexivity. }
  simpl extractSkills. rewrite E. destruct (truthy c); [|reflexivity].
  apply clean_of_trimmed. apply Forall_app. split; [apply keywords_of_trimmed|].
  repeat constructor; discriminate.
Qed.

(** C6, as the code has it: for a job without skills whose title and
    description yield no keyword, [performLocalMatch] gives the result it
    gives for a job whose skills are a fixed generic list.  Without a
    company that list is communication, teamwork, problem solving,
    professional; with a company it is the keywords found in the company
    name followed by Professional, Communication, Teamwork.  The list is
    never empty, and it is the missing list when the profile has no
    skill. *)
Theorem performLocalMatch_job_fallbacks
  (profile : option Obj) (sk : option (list SkillEntry))
  (t d c : option jsstring) :
  opt_list sk = [] ->
  keywords_of t = [] ->
  keywords_of d = [] ->
  performLocalMatch profile (Some (job_record sk t d c))
  = performLocalMatch profile
      (Some (set_skills empty_obj
               (map SkStr
                  (if truthy c
                   then dedupe
                          (keywords_of c
                           ++ map str ["Professional"; "Communication";
                                       "Teamwork"]%string)
                   else map str ["communication"; "teamwork"; "problem solving";
                                 "professional"]%string))))
  /\ (if truthy c
      then dedupe (keywords_of c
                   ++ map str ["Professional"; "Communication"; "Teamwork"]%string)
      else map str ["communication"; "teamwork"; "problem solving";
                    "professional"]%string) <> []
  /\ (extractSkills profile = [] ->
      skills_missing (performLocalMatch profile (Some (job_record sk t d c)))
      = if truthy c
        then dedupe (keywords_of c
                     ++ map str ["Professional"; "Communication"; "Teamwork"]%string)
        else map str ["communication"; "teamwork"; "problem solving";
                      "professional"]%string).
Proof.
  intros Hsk Ht Hd.
  pose proof (empty_job_collects_company sk t d c Hsk Ht Hd) as E.
  set (generic := dedupe (keywords_of c
                          ++ map str ["Professional"; "Communication";
                                      "Teamwork"]%string)) in *.
  assert (Hgen : generic <> []).
  { intros H0.
    assert (Hin : In (str "Professional") generic).
    { unfold generic. apply dedupe_in, in_or_app. right. now left. }
    rewrite H0 in Hin. destruct Hin. }
  assert (Heff : effectiveJobSkills (extractSkills (Some (job_record sk t d c)))
                 = if truthy c then generic
                   else map str ["communication"; "teamwork"; "problem solving";
                                 "professional"]%string).
  { rewrite E. destruct (truthy c); [|reflexivity].
    unfold effectiveJobSkills. destruct generic; [now destruct Hgen | reflexivity]. }
  split; [|split].
  - apply performLocalMatch_by_job_skills. rewrite Heff.
    destruct (truthy c).
    + rewrite extractSkills_of_names.
      * unfold effectiveJobSkills. destruct generic; [now destruct Hgen | reflexivity].
      * apply dedupe_NoDup.
      * apply Forall_forall. intros x Hx. unfold generic in Hx.
        rewrite dedupe_in in Hx.
        assert (F : Forall (fun s => s <> [] /\ trim s = s)
                      (keywords_of c
                       ++ map str ["Professional"; "Communication"; "Teamwork"]%string)).
        { apply Forall_app. split; [apply keywords_of_trimmed|].
          repeat constructor; discriminate. }
        rewrite Forall_forall in F. exact (F x Hx).
    + rewrite extractSkills_of_names; [reflexivity | |].
      * repeat constructor; simpl; intuition discriminate.
      * repeat constructor; discriminate.
  - destruct (truthy c); [exact Hgen | discriminate].
  - intros Hp. unfold performLocalMatch. rewrite Hp. cbn [List.length Nat.eqb].
    cbn [skills_missing]. exact Heff.
Qed.

Lemma performLocalMatch_job_fallbacks_witness :
  performLocalMatch (Some profile_A)
    (Some (job_record (Some []) (Some (str "Chef")) None None))
  = performLocalMatch (Some profile_A)
      (Some (with_skills ["communication"; "teamwork"; "problem solving";
                          "professional"]%string))
  /\ skills_missing
       (performLocalMatch (Some profile_no_skills)
          (Some (job_record (Some []) (Some (str "Chef")) None None)))
     = map str ["communication"; "teamwork"; "problem solving"; "professional"]%string.
Proof.
  split.
  - apply (proj1 (performLocalMatch_job_fallbacks (Some profile_A) (Some [])
                    (Some (str "Chef")) None None eq_refl eq_refl eq_refl)).
  - apply (proj2 (proj2 (performLocalMatch_job_fallbacks (Some profile_no_skills)
                           (Some []) (Some (str "Chef")) None None
                           eq_refl eq_refl eq_refl))).
    reflexivity.
Defined.

(** C6, the claim refuted: the job with no skill, no title, no
    description and the company Acme yields no keyword anywhere, yet the
    engine does not match against the four-name fallback: the effective
    job skills are Professional, Communication, Teamwork. *)
Lemma company_job_skips_named_fallback :
  opt_list (skills (job_record (Some []) None None (Some (str "Acme")))) = []
  /\ extractTechKeywords (str "Acme") = []
  /\ effectiveJobSkills
       (extractSkills (Some (job_record (Some []) None None (Some (str "Acme")))))
     = map str ["Professional"; "Communication"; "Teamwork"]%string
  /\ skills_missing
       (performLocalMatch (Some profile_no_skills)
          (Some (job_record (Some []) None None (Some (str "Acme")))))
     = map str ["Professional"; "Communication"; "Teamwork"]%string
  /\ skills_missing
       (performLocalMatch (Some profile_no_skills)
          (Some (job_record (Some []) None None (Some (str "Acme")))))
     <> map str ["communication"; "teamwork"; "problem solving"; "professional"]%string.
Proof.
  split; [reflexivity|]. split; [vm_compute; reflexivity|].
  split; [vm_compute; reflexivity|]. split; [vm_compute; reflexivity|].
  vm_compute. discriminate.
Qed.

(* ===================================================================== *)
(** ** The similarity function, as the engine calls it *)
(* ===================================================================== *)





